(** * QR plan builder (package qr, file qr/qr.go): model and properties

    The Go package builds the static layout of a QR symbol: [vplan] allocates
    the grid and stamps timing, position and alignment patterns, [fplan]
    writes the 15 format bits twice, [lplan] records the level and [mplan]
    applies one of eight masks.  The functions below follow qr.go line by
    line.  Go integers are modelled by [Z]; conversions to [uint32] and
    64-bit [int] arithmetic on unbounded operands have their wrap-around
    written out.  A slice is a [list]; an index outside it is a run-time
    panic, which the result type records. *)

From Stdlib Require Import ZArith List Lia Bool.
From stdpp Require Import base tactics option list list_numbers numbers.

Local Open Scope Z_scope.

(** ** Outcomes of a call *)

(** [os.Error] values built by the package: only [vplan] makes one, with
    [fmt.Errorf("invalid QR version %d", int(v))]. *)
Inductive error : Type :=
  | InvalidVersion (v : Z).

(** A Go call either returns normally, returns a non-nil [os.Error],
    panics (index out of range), or does not return; the last outcome is
    what a loop that has used up its iteration budget stands for. *)
Inductive result (A : Type) : Type :=
  | Ok (a : A)
  | Err (e : error)
  | Panic
  | Diverge.
Arguments Ok {A} a.
Arguments Err {A} e.
Arguments Panic {A}.
Arguments Diverge {A}.

Global Instance result_bind : MBind result := λ A B f r,
  match r with
  | Ok a => f a
  | Err e => Err e
  | Panic => Panic
  | Diverge => Diverge
  end.

(** [for _, a := range l { s = f(a, s) }] with early exit on failure. *)
Fixpoint for_each {S A : Type} (f : A → S → result S) (l : list A) (s : S)
    : result S :=
  match l with
  | [] => Ok s
  | a :: l' => s' ← f a s; for_each f l' s'
  end.

(** ** Integers *)

Definition uint32 (z : Z) : Z := z mod 2 ^ 32.

(** Go's [int] taken as 64 bits, two's complement. *)
Definition wrap_int (z : Z) : Z := (z + 2 ^ 63) mod 2 ^ 64 - 2 ^ 63.
Definition addi (a b : Z) : Z := wrap_int (a + b).
Definition muli (a b : Z) : Z := wrap_int (a * b).

(** ** Pixels (type Pixel uint32) *)

Definition Black : Z := 1.
Definition Invert : Z := 2.

Definition Offset (p : Z) : Z := Z.shiftr p 5.
Definition OffsetPixel (o : Z) : Z := uint32 (Z.shiftl o 5).

(** type PixelRole uint32; the constants are [iota] values 1..6. *)
Definition Position : Z := 1.
Definition Alignment : Z := 2.
Definition Timing : Z := 3.
Definition Format : Z := 4.
Definition Data : Z := 5.
Definition Check : Z := 6.

Definition RolePixel (r : Z) : Z := uint32 (Z.shiftl r 2).
Definition Role (p : Z) : Z := Z.land (Z.shiftr p 2) 7.

Definition is_black (p : Z) : bool := negb (Z.land p Black =? 0).
Definition is_invert (p : Z) : bool := negb (Z.land p Invert =? 0).

(** ** Levels (type Level int)

    The declaration is
    [const ( L Level = 0; M; Q; H )].
    A constant without an expression repeats the previous expression, and
    that expression is the literal [0], not [iota]: all four names denote 0. *)
Definition L : Z := 0.
Definition M : Z := 0.
Definition Q : Z := 0.
Definition H : Z := 0.

(** ** Plans *)

Record Plan : Type := mkPlan {
  Version : Z;
  Level : Z;
  Mask : Z;
  DataBytes : Z;
  CheckBytes : Z;
  Blocks : Z;
  Pixel : list (list Z)
}.

Definition with_Pixel (p : Plan) (g : list (list Z)) : Plan :=
  mkPlan (Version p) (Level p) (Mask p) (DataBytes p) (CheckBytes p) (Blocks p) g.
Definition with_Level (p : Plan) (l : Z) : Plan :=
  mkPlan (Version p) l (Mask p) (DataBytes p) (CheckBytes p) (Blocks p) (Pixel p).
Definition with_Mask (p : Plan) (m : Z) : Plan :=
  mkPlan (Version p) (Level p) m (DataBytes p) (CheckBytes p) (Blocks p) (Pixel p).

(** ** Grids: [m[y][x]] and [m[y][x] = p] *)

(** A Go index is an [int]; it selects an element only when it is
    non-negative and below the length. *)
Definition index (i : Z) : option nat :=
  if decide (0 ≤ i) then Some (Z.to_nat i) else None.

Definition cell (g : list (list Z)) (r c : nat) : option Z :=
  row ← g !! r; row !! c.

Definition get (g : list (list Z)) (y x : Z) : option Z :=
  r ← index y; c ← index x; cell g r c.

Definition set (g : list (list Z)) (y x p : Z) : result (list (list Z)) :=
  match index y, index x with
  | Some r, Some c =>
      match g !! r with
      | Some row =>
          if decide (c < length row)%nat then Ok (<[r := <[c := p]> row]> g)
          else Panic
      | None => Panic
      end
  | _, _ => Panic
  end.

Definition len (g : list (list Z)) : Z := Z.of_nat (length g).

(** ** Version table *)

Record version : Type := mkVersion { apos : Z; astride : Z }.

Definition vtab : list version :=
  mkVersion 0 0 ::
  (* 1-10 *)
  mkVersion 100 100 :: mkVersion 16 100 :: mkVersion 20 100 ::
  mkVersion 24 100 :: mkVersion 28 100 :: mkVersion 32 100 ::
  mkVersion 20 16 :: mkVersion 22 18 :: mkVersion 24 20 :: mkVersion 26 22 ::
  (* 11-20 *)
  mkVersion 28 24 :: mkVersion 30 26 :: mkVersion 32 28 :: mkVersion 24 20 ::
  mkVersion 24 22 :: mkVersion 24 24 :: mkVersion 28 24 :: mkVersion 28 26 ::
  mkVersion 28 28 :: mkVersion 32 28 ::
  (* 21-30 *)
  mkVersion 26 22 :: mkVersion 24 24 :: mkVersion 28 24 :: mkVersion 26 26 ::
  mkVersion 30 26 :: mkVersion 28 28 :: mkVersion 32 28 :: mkVersion 24 24 ::
  mkVersion 28 24 :: mkVersion 24 26 ::
  (* 31-40 *)
  mkVersion 28 26 :: mkVersion 32 26 :: mkVersion 28 28 :: mkVersion 32 28 ::
  mkVersion 28 24 :: mkVersion 22 26 :: mkVersion 26 26 :: mkVersion 30 26 ::
  mkVersion 24 28 :: mkVersion 28 28 :: [].

(** ** posBox and alignBox *)

Definition posPixel (dx dy : Z) : Z :=
  if (dx =? 0) || (dx =? 6) || (dy =? 0) || (dy =? 6)
     || ((2 <=? dx) && (dx <=? 4) && (2 <=? dy) && (dy <=? 4))
  then Z.lor (RolePixel Position) Black
  else RolePixel Position.

Definition posBox (m : list (list Z)) (x y : Z) : result (list (list Z)) :=
  let pos := RolePixel Position in
  (* box *)
  m ← for_each (λ dy m,
         for_each (λ dx m, set m (y + dy) (x + dx) (posPixel dx dy))
                  (seqZ 0 7) m)
       (seqZ 0 7) m;
  (* white border *)
  m ← for_each (λ dy m,
         if (0 <=? y + dy) && (y + dy <? len m) then
           m ← (if 0 <? x then set m (y + dy) (x - 1) pos else Ok m);
           (if x + 7 <? len m then set m (y + dy) (x + 7) pos else Ok m)
         else Ok m)
       (seqZ (-1) 9) m;
  for_each (λ dx m,
     if (0 <=? x + dx) && (x + dx <? len m) then
       m ← (if 0 <? y then set m (y - 1) (x + dx) pos else Ok m);
       (if y + 7 <? len m then set m (y + 7) (x + dx) pos else Ok m)
     else Ok m)
  (seqZ (-1) 9) m.

Definition alignPixel (dx dy : Z) : Z :=
  if (dx =? 0) || (dx =? 4) || (dy =? 0) || (dy =? 4)
     || ((dx =? 2) && (dy =? 2))
  then Z.lor (RolePixel Alignment) Black
  else RolePixel Alignment.

Definition alignBox (m : list (list Z)) (x y : Z) : result (list (list Z)) :=
  for_each (λ dy m,
     for_each (λ dx m, set m (y + dy) (x + dx) (alignPixel dx dy))
              (seqZ 0 5) m)
  (seqZ 0 5) m.

(** ** vplan *)

(** The loop shape shared by the two alignment loops:
    [for x := 4; x+5 < siz; { body; if x == 4 { x = info.apos } else
    { x += info.astride } }], started at [x].  [fuel] bounds the number of
    iterations; a loop that needs more is reported as [Diverge].  After
    the version check [siz] is at most 177 and the table entries at most
    100, so the additions below stay far from the limits of [int]. *)
Fixpoint walk {S : Type} (fuel : nat) (siz : Z) (info : version)
    (body : Z → S → result S) (x : Z) (s : S) : result S :=
  match fuel with
  | O => Diverge
  | Datatypes.S k =>
      if x + 5 <? siz then
        s' ← body x s;
        walk k siz info body (if x =? 4 then apos info else x + astride info) s'
      else Ok s
  end.

(** The guard of the alignment loop body. *)
Definition skipAlign (siz x y : Z) : bool :=
  ((x <? 7) && (y <? 7)) || ((x <? 7) && (siz - 7 <=? y + 5))
  || ((siz - 7 <=? x + 5) && (y <? 7)).

(** [const ti = 6]: timing is in row/column 6. *)
Definition ti : Z := 6.

(** The timing loop of [vplan]: [for i := range m]. *)
Definition timing (m : list (list Z)) : result (list (list Z)) :=
  for_each (λ i m,
     let p := if Z.land i 1 =? 0 then Z.lor (RolePixel Timing) Black
              else RolePixel Timing in
     m ← set m i ti p;
     set m ti i p)
  (seqZ 0 (len m)) m.

(** The two nested alignment loops of [vplan].  Each loop is given [siz]
    iterations, more than any loop uses whose variable grows by at least
    one per iteration. *)
Definition alignAll (siz : Z) (info : version) (m : list (list Z))
    : result (list (list Z)) :=
  let fuel := Z.to_nat siz in
  walk fuel siz info (λ x m,
    walk fuel siz info (λ y m,
      if skipAlign siz x y then Ok m else alignBox m x y) 4 m) 4 m.

Definition vplan (v : Z) : result Plan :=
  if (v <? 1) || (40 <? v) then Err (InvalidVersion v)
  else
    let siz := 17 + v * 4 in
    let m := replicate (Z.to_nat siz) (replicate (Z.to_nat siz) 0) in
    m ← timing m;
    m ← posBox m 0 0;
    m ← posBox m (siz - 7) 0;
    m ← posBox m 0 (siz - 7);
    match vtab !! Z.to_nat v with
    | None => Panic
    | Some info =>
        m ← alignAll siz info m;
        Ok (mkPlan v 0 0 0 0 0 m)
    end.

(** ** fplan *)

Definition formatPoly : Z := 0x537.

(** [fb := uint32(l^1) << 13; fb |= uint32(m) << 10] *)
Definition format_info (l m : Z) : Z :=
  Z.lor (uint32 (Z.shiftl (uint32 (Z.lxor l 1)) 13))
        (uint32 (Z.shiftl (uint32 m) 10)).

(** [for i := 14; i >= 10; i-- { if rem&(1<<uint(i)) != 0
    { rem ^= formatPoly << uint(i-10) } }] *)
Definition format_rem (fb : Z) : Z :=
  fold_left (λ rem i,
      if negb (Z.land rem (uint32 (Z.shiftl 1 i)) =? 0)
      then Z.lxor rem (uint32 (Z.shiftl formatPoly (i - 10)))
      else rem)
    [14; 13; 12; 11; 10] fb.

(** [fb |= rem] *)
Definition format_bits (l m : Z) : Z :=
  let fb := format_info l m in Z.lor fb (format_rem fb).

Definition format_invert : Z := 0x5412.

(** The pixel drawn for bit [i] of [fb]. *)
Definition format_pixel (fb i : Z) : Z :=
  let pix := uint32 (RolePixel Format + OffsetPixel i) in
  let pix := if Z.land (Z.shiftr fb i) 1 =? 1 then Z.lor pix Black else pix in
  if Z.land (Z.shiftr format_invert i) 1 =? 1
  then Z.lxor pix (Z.lor Invert Black) else pix.

Definition fplan (l m : Z) (p : Plan) : result Plan :=
  let fb := format_bits l m in
  let siz := len (Pixel p) in
  g ← for_each (λ i g,
         let pix := format_pixel fb i in
         (* top left *)
         g ← (if i <? 6 then set g i 8 pix
               else if i <? 8 then set g (i + 1) 8 pix
               else if i <? 9 then set g 8 7 pix
               else set g 8 (14 - i) pix);
         (* bottom right *)
         (if i <? 8 then set g 8 (siz - 1 - i) pix
          else set g (siz - 1 - (14 - i)) 8 pix))
       (seqZ 0 15) (Pixel p);
  Ok (with_Pixel p g).

(** ** lplan *)

Definition lplan (l : Z) (p : Plan) : result Plan := Ok (with_Level p l).

(** ** mplan *)

Definition mfunc : list (Z → Z → bool) :=
  [ (λ i j, Z.rem (addi i j) 2 =? 0);
    (λ i j, Z.rem i 2 =? 0);
    (λ i j, Z.rem j 3 =? 0);
    (λ i j, Z.rem (addi i j) 3 =? 0);
    (λ i j, Z.rem (addi (Z.quot i 2) (Z.quot j 3)) 2 =? 0);
    (λ i j, addi (Z.rem (muli i j) 2) (Z.rem (muli i j) 3) =? 0);
    (λ i j, Z.rem (addi (Z.rem (muli i j) 2) (Z.rem (muli i j) 3)) 2 =? 0);
    (λ i j, Z.rem (addi (Z.rem (muli i j) 3) (Z.rem (addi i j) 2)) 2 =? 0) ].

(** The body of the two [range] loops, at row [y] and column [x]. *)
Definition mask_pixel (f : Z → Z → bool) (y x : nat) (pix : Z) : Z :=
  if (Role pix =? Data) || (Role pix =? Check) then
    if f (Z.of_nat x) (Z.of_nat y) then Z.lor pix Invert else pix
  else pix.

Definition mplan (m : Z) (p : Plan) : result Plan :=
  match index m ≫= (λ k, mfunc !! k) with
  | None => Panic
  | Some f =>
      Ok (with_Pixel (with_Mask p m)
            (imap (λ y row, imap (λ x pix, mask_pixel f y x pix) row) (Pixel p)))
  end.

(** ** NewPlan *)

Definition NewPlan (version level mask : Z) : result Plan :=
  p ← vplan version;
  p ← fplan level mask p;
  p ← lplan level p;
  mplan mask p.

(** * Definitions used to state the properties *)

(** A grid of [n] rows with [n] cells each. *)
Definition square (n : nat) (g : list (list Z)) : Prop :=
  length g = n ∧ Forall (λ row, length row = n) g.

(** A store: row, column, pixel. *)
Definition write : Type := Z * Z * Z.

Definition store (ws : list write) (g : list (list Z))
    : result (list (list Z)) :=
  for_each (λ w g, set g w.1.1 w.1.2 w.2) ws g.

(** The pixel left at [(y, x)] by the stores [ws]: the last one wins. *)
Fixpoint written (ws : list write) (y x : Z) : option Z :=
  match ws with
  | [] => None
  | w :: ws' =>
      match written ws' y x with
      | Some p => Some p
      | None => if decide (w.1 = (y, x)) then Some w.2 else None
      end
  end.

Definition in_grid (n : nat) (w : write) : Prop :=
  0 ≤ w.1.1 < Z.of_nat n ∧ 0 ≤ w.1.2 < Z.of_nat n.

(** The cell chosen by the first [switch] of [fplan] for bit [i]
    (row, column). *)
Definition format_cell_a (i : Z) : Z * Z :=
  if i <? 6 then (i, 8)
  else if i <? 8 then (i + 1, 8)
  else if i <? 9 then (8, 7)
  else (8, 14 - i).

(** The cell chosen by the second [switch]. *)
Definition format_cell_b (siz i : Z) : Z * Z :=
  if i <? 8 then (8, siz - 1 - i) else (siz - 1 - (14 - i), 8).

Definition format_bit_writes (fb siz i : Z) : list write :=
  [(format_cell_a i, format_pixel fb i); (format_cell_b siz i, format_pixel fb i)].

Definition format_writes (fb siz : Z) : list write :=
  flat_map (format_bit_writes fb siz) (seqZ 0 15).

Definition format_cells (siz : Z) : list (Z * Z) :=
  flat_map (λ i, [format_cell_a i; format_cell_b siz i]) (seqZ 0 15).

Fixpoint row_all (f : nat → Z → bool) (c : nat) (row : list Z) : bool :=
  match row with
  | [] => true
  | p :: row' => f c p && row_all f (S c) row'
  end.

Fixpoint rows_all (f : nat → nat → Z → bool) (r : nat) (g : list (list Z))
    : bool :=
  match g with
  | [] => true
  | row :: g' => row_all (f r) 0 row && rows_all f (S r) g'
  end.

Definition cells_all (f : nat → nat → Z → bool) (g : list (list Z)) : bool :=
  rows_all f 0 g.

Definition side (v : Z) : Z := 17 + v * 4.

Global Instance square_dec (n : nat) (g : list (list Z)) : Decision (square n g).
Proof. unfold square. apply _. Defined.

(** What the later stages need to know about the grid left by [vplan]:
    it is square of side [4v+17], its roles are none, position, alignment
    or timing, and the thirty format cells are still blank. *)
Definition vplan_check (v : Z) : bool :=
  match vplan v with
  | Ok p =>
      bool_decide (square (Z.to_nat (side v)) (Pixel p))
      && cells_all (λ _ _ pix, Role pix <? Format) (Pixel p)
      && forallb (λ yx, bool_decide (get (Pixel p) yx.1 yx.2 = Some 0))
                 (format_cells (side v))
  | _ => false
  end.

(** The reading of the specification: every cell outside the timing,
    position, alignment and format patterns carries role Data or Check. *)
Definition data_check_marked (p : Plan) : Prop :=
  ∀ y x pix, get (Pixel p) y x = Some pix →
    Role pix ≠ Timing → Role pix ≠ Position → Role pix ≠ Alignment →
    Role pix ≠ Format →
    Role pix = Data ∨ Role pix = Check.

(** Rows 0..8 of columns 0..8: the corner around the top-left finder. *)
Definition near_top_left (yx : Z * Z) : Prop :=
  0 ≤ yx.1 ≤ 8 ∧ 0 ≤ yx.2 ≤ 8.

(** Row 8 under the top-right finder, or column 8 beside the bottom-left
    one. *)
Definition near_other_corners (siz : Z) (yx : Z * Z) : Prop :=
  (yx.1 = 8 ∧ siz - 8 ≤ yx.2 < siz) ∨ (yx.2 = 8 ∧ siz - 7 ≤ yx.1 < siz).

(** The 15-bit word whose bit [i] is [f i]. *)
Definition bits_of (f : Z → bool) : Z :=
  fold_right (λ i acc, Z.lor acc (if f i then Z.shiftl 1 i else 0)) 0
             (seqZ 0 15).

(** The word shown by the black flags of the fifteen pixels drawn for
    [fb]. *)
Definition placed_black (fb : Z) : Z :=
  bits_of (λ i, is_black (format_pixel fb i)).

(** Product of two polynomials over GF(2), bit [i] standing for the
    coefficient of degree [i]; the first factor has degree below 15. *)
Definition gf2_mul (a b : Z) : Z :=
  fold_right (λ i acc, if Z.testbit a i then Z.lxor acc (Z.shiftl b i) else acc)
             0 (seqZ 0 15).

Definition format_check (lm : Z * Z) : bool :=
  let fb := format_bits lm.1 lm.2 in
  (0 <=? fb) && (fb <? 2 ^ 15)
  && (Z.shiftr fb 13 =? Z.lxor lm.1 1)
  && (Z.land (Z.shiftr fb 10) 7 =? lm.2)
  && (Z.land fb 1023 =? format_rem (format_info lm.1 lm.2))
  && (placed_black fb =? Z.lxor fb format_invert)
  && (format_rem (Z.lxor (placed_black fb) format_invert) =? 0)
  && existsb (λ q, gf2_mul q formatPoly =? fb) (seqZ 0 32).

(** The 15-bit word read off a grid: bit [i] is set when a format-role
    cell with offset [i] satisfies [flag]. *)
Definition format_pattern (flag : Z → bool) (g : list (list Z)) : Z :=
  let cells := List.filter (λ pix, Role pix =? Format) (concat g) in
  bits_of (λ i, existsb (λ pix, (Offset pix =? i) && flag pix) cells).

(** Final colour as the specification defines it: black XOR invert. *)
Definition rendered (pix : Z) : bool := xorb (is_black pix) (is_invert pix).

Definition pattern_of (flag : Z → bool) (r : result Plan) : option Z :=
  match r with
  | Ok p => Some (format_pattern flag (Pixel p))
  | _ => None
  end.

(** The scenario of the specification for level [lvl], mask 0 and version
    [v]: info bits, remainder and codeword are 0 and the rendered colours
    of the format cells read 0x5412. *)
Definition draws_5412 (v lvl : Z) : Prop :=
  format_info lvl 0 = 0 ∧
  format_rem (format_info lvl 0) = 0 ∧
  format_bits lvl 0 = 0 ∧
  pattern_of rendered (NewPlan v lvl 0) = Some 0x5412.

Definition level_one_check (v : Z) : bool :=
  match NewPlan v 1 0 with
  | Ok p =>
      (format_pattern is_black (Pixel p) =? 0x5412)
      && (format_pattern is_invert (Pixel p) =? 0x5412)
      && (format_pattern rendered (Pixel p) =? 0)
  | _ => false
  end.

(** The eight formulas as the specification writes them (section 4.4),
    over the integers. *)
Definition mask_formula (m i j : Z) : bool :=
  match m with
  | 0 => (i + j) mod 2 =? 0
  | 1 => i mod 2 =? 0
  | 2 => j mod 3 =? 0
  | 3 => (i + j) mod 3 =? 0
  | 4 => (i / 2 + j / 3) mod 2 =? 0
  | 5 => (i * j) mod 2 + (i * j) mod 3 =? 0
  | 6 => ((i * j) mod 2 + (i * j) mod 3) mod 2 =? 0
  | 7 => ((i * j) mod 3 + (i + j) mod 2) mod 2 =? 0
  | _ => false
  end.

(** The reading of C7: after [mplan m] a data or check cell has its invert
    flag set exactly when the [m]-th formula holds with [i] the row index
    and [j] the column index. *)
Definition masked_by_row_column (m : Z) (p' : Plan) : Prop :=
  ∀ y x pix', get (Pixel p') y x = Some pix' →
    Role pix' = Data ∨ Role pix' = Check →
    is_invert pix' = mask_formula m y x.

(** The values taken by the loop variable of an alignment loop. *)
Definition axis (siz : Z) (info : version) : result (list Z) :=
  walk (Z.to_nat siz) siz info (λ x xs, Ok (xs ++ [x])) 4 [].

(** The calls [alignBox(m, x, y)] made by the two loops over the axis
    values [xs], in order. *)
Definition alignCalls (siz : Z) (xs : list Z) : list (Z * Z) :=
  List.filter (λ xy, negb (skipAlign siz xy.1 xy.2)) (list_prod xs xs).

(** The specification's walk along one axis: start at 4, jump to [apos],
    then step by [astride] until exceeding [siz - 9]. *)
Fixpoint steps_upto (n : nat) (x stride limit : Z) : list Z :=
  match n with
  | O => []
  | Datatypes.S k =>
      if x <=? limit then x :: steps_upto k (x + stride) stride limit else []
  end.

Definition spec_axis (siz : Z) (info : version) : list Z :=
  4 :: steps_upto (Z.to_nat siz) (apos info) (astride info) (siz - 9).

(** The three exclusion zones: a 7x7 finder box in a corner together with
    its one-cell border, for a cell of the grid in row [y], column [x]. *)
Definition finder_zone (siz y x : Z) : bool :=
  ((y <=? 7) && (x <=? 7)) || ((y <=? 7) && (siz - 8 <=? x))
  || ((siz - 8 <=? y) && (x <=? 7)).

(** The 25 cells (row, column) of the box whose top-left corner is at
    column [xy.1], row [xy.2]. *)
Definition footprint (xy : Z * Z) : list (Z * Z) :=
  list_prod (seqZ xy.2 5) (seqZ xy.1 5).

Definition overlaps_finder (siz : Z) (xy : Z * Z) : bool :=
  existsb (λ yx, finder_zone siz yx.1 yx.2) (footprint xy).

(** The specification's alignment boxes: all pairs of axis candidates
    whose footprint misses the exclusion zones. *)
Definition spec_places (siz : Z) (info : version) : list (Z * Z) :=
  List.filter (λ xy, negb (overlaps_finder siz xy))
              (list_prod (spec_axis siz info) (spec_axis siz info)).

Definition covers (xy : Z * Z) (y x : Z) : Prop :=
  xy.1 ≤ x < xy.1 + 5 ∧ xy.2 ≤ y < xy.2 + 5.

Definition covers_b (y x : Z) (xy : Z * Z) : bool :=
  (xy.1 <=? x) && (x <? xy.1 + 5) && (xy.2 <=? y) && (y <? xy.2 + 5).

(** The box at [xy] is in the grid, pixel for pixel. *)
Definition box_stamped (g : list (list Z)) (xy : Z * Z) : bool :=
  forallb (λ yx, bool_decide (get g yx.1 yx.2
                              = Some (alignPixel (yx.2 - xy.1) (yx.1 - xy.2))))
          (footprint xy).

Definition align_cell_ok (siz : Z) (places : list (Z * Z)) (r c : nat)
    (pix : Z) : bool :=
  let y := Z.of_nat r in
  let x := Z.of_nat c in
  (if Role pix =? Alignment then existsb (covers_b y x) places else true)
  && implb (finder_zone siz y x) (Role pix =? Position).

Definition align_check (v : Z) : bool :=
  match vtab !! Z.to_nat v, vplan v with
  | Some info, Ok p =>
      let siz := side v in
      match axis siz info with
      | Ok xs => bool_decide (xs = spec_axis siz info)
      | _ => false
      end
      && bool_decide (alignCalls siz (spec_axis siz info) = spec_places siz info)
      && forallb (box_stamped (Pixel p)) (spec_places siz info)
      && cells_all (align_cell_ok siz (spec_places siz info)) (Pixel p)
  | _, _ => false
  end.

(** ** Definitions for the further properties *)

(** The pixel built as [r.Pixel() | OffsetPixel(o) | flags]. *)
Definition pack (r o : Z) (black invert : bool) : Z :=
  Z.lor (Z.lor (Z.lor (RolePixel r) (OffsetPixel o))
               (if black then Black else 0))
        (if invert then Invert else 0).

(** The stores of [alignBox(m, x, y)], in order. *)
Definition align_writes (x y : Z) : list write :=
  flat_map (λ dy, map (λ dx, (y + dy, x + dx, alignPixel dx dy)) (seqZ 0 5))
           (seqZ 0 5).

(** The stores of [posBox(m, x, y)] on a grid of [n] rows, in order: the
    box, then the border cells left and right, then those above and below,
    each only where the source's bounds tests let it through. *)
Definition pos_writes (n x y : Z) : list write :=
  flat_map (λ dy, map (λ dx, (y + dy, x + dx, posPixel dx dy)) (seqZ 0 7))
           (seqZ 0 7)
  ++ flat_map (λ dy,
       if (0 <=? y + dy) && (y + dy <? n) then
         (if 0 <? x then [(y + dy, x - 1, RolePixel Position)] else [])
         ++ (if x + 7 <? n then [(y + dy, x + 7, RolePixel Position)] else [])
       else []) (seqZ (-1) 9)
  ++ flat_map (λ dx,
       if (0 <=? x + dx) && (x + dx <? n) then
         (if 0 <? y then [(y - 1, x + dx, RolePixel Position)] else [])
         ++ (if y + 7 <? n then [(y + 7, x + dx, RolePixel Position)] else [])
       else []) (seqZ (-1) 9).

(** The cell in row [r], column [c] lies in the 7x7 box at [(x, y)]. *)
Definition in_box (x y r c : Z) : bool :=
  (x <=? c) && (c <? x + 7) && (y <=? r) && (r <? y + 7).

(** The cell lies in the 9x9 square around that box. *)
Definition in_ring (x y r c : Z) : bool :=
  (x - 1 <=? c) && (c <=? x + 7) && (y - 1 <=? r) && (r <=? y + 7).

(** Number of set bits among the low fifteen. *)
Definition weight15 (z : Z) : Z :=
  Z.of_nat (length (List.filter (Z.testbit z) (seqZ 0 15))).

(** The 32 pairs of a level 0..3 and a mask 0..7. *)
Definition format_pairs : list (Z * Z) := list_prod (seqZ 0 4) (seqZ 0 8).

Definition far_apart (a b : Z * Z) : Prop :=
  a = b ∨ 7 ≤ weight15 (Z.lxor (format_bits a.1 a.2) (format_bits b.1 b.2)).

Global Instance far_apart_dec (a b : Z * Z) : Decision (far_apart a b).
Proof. unfold far_apart. apply _. Defined.

Definition drawn_mixed (lm : Z * Z) : Prop :=
  5 ≤ weight15 (placed_black (format_bits lm.1 lm.2)) ≤ 10.

Global Instance drawn_mixed_dec (lm : Z * Z) : Decision (drawn_mixed lm).
Proof. unfold drawn_mixed. apply _. Defined.

(** A table entry that makes the alignment loops advance. *)
Definition strides_ok (info : version) : Prop :=
  4 < apos info ∧ 1 ≤ astride info.

Global Instance strides_ok_dec (info : version) : Decision (strides_ok info).
Proof. unfold strides_ok. apply _. Defined.

(** What [vplan] leaves in a cell of a finder zone of a grid of side
    [siz]: the finder pattern in the three 7x7 boxes, a light position
    pixel on their borders. *)
Definition finder_pixel (siz y x : Z) : Z :=
  if in_box 0 0 y x then posPixel x y
  else if in_box (siz - 7) 0 y x then posPixel (x - (siz - 7)) y
  else if in_box 0 (siz - 7) y x then posPixel x (y - (siz - 7))
  else RolePixel Position.

(** The pixel of the timing loop of [vplan] at index [i]. *)
Definition timing_pixel (i : Z) : Z :=
  if Z.land i 1 =? 0 then Z.lor (RolePixel Timing) Black
  else RolePixel Timing.

Definition geometry_cell_ok (siz : Z) (r c : nat) (pix : Z) : bool :=
  let y := Z.of_nat r in
  let x := Z.of_nat c in
  (if finder_zone siz y x then pix =? finder_pixel siz y x else true)
  && (if Role pix =? Timing
      then ((y =? 6) || (x =? 6))
           && (pix =? timing_pixel (if y =? 6 then x else y))
      else true)
  && (if (y =? 6) || (x =? 6)
      then finder_zone siz y x || (Role pix =? Timing)
           || (Role pix =? Alignment)
      else true)
  && negb (is_invert pix).

Definition geometry_check (v : Z) : bool :=
  match vplan v with
  | Ok p => cells_all (geometry_cell_ok (side v)) (Pixel p)
  | _ => false
  end.

(** The axis values of version [v], as the loop of [vplan] produces them
    (empty if the loop does not produce them). *)
Definition axis_of (v : Z) : list Z :=
  match vtab !! Z.to_nat v with
  | Some info =>
      match axis (side v) info with
      | Ok xs => xs
      | _ => []
      end
  | None => []
  end.

(** The three pairs of axis values that sit on a finder. *)
Definition corner_pairs (siz : Z) : list (Z * Z) :=
  [(4, 4); (4, siz - 9); (siz - 9, 4)].

Definition skips_corners (v : Z) : Prop :=
  let xs := axis_of v in
  head xs = Some 4 ∧ List.last xs 0 = side v - 9 ∧ NoDup xs ∧
  alignCalls (side v) xs
  = List.filter (λ xy, bool_decide (xy ∉ corner_pairs (side v)))
                (list_prod xs xs).

Global Instance skips_corners_dec (v : Z) : Decision (skips_corners v).
Proof. unfold skips_corners. apply _. Defined.

(** Every box lies in the grid and two different boxes are at least 16
    cells apart along one axis. *)
Definition boxes_apart (siz : Z) (calls : list (Z * Z)) : Prop :=
  Forall (λ a,
    (0 ≤ a.1 ∧ a.1 + 5 ≤ siz ∧ 0 ≤ a.2 ∧ a.2 + 5 ≤ siz) ∧
    Forall (λ b, a = b ∨ 16 ≤ Z.abs (a.1 - b.1) ∨ 16 ≤ Z.abs (a.2 - b.2))
           calls) calls.

Global Instance boxes_apart_dec (siz : Z) (calls : list (Z * Z)) :
  Decision (boxes_apart siz calls).
Proof. unfold boxes_apart. apply _. Defined.

(** * Properties *)

(** ** Cells of a grid *)

Lemma index_of_nat (n : nat) : index (Z.of_nat n) = Some n.
Proof.
  unfold index. destruct (decide (0 ≤ Z.of_nat n)) as [_|Hn]; [|lia].
  by rewrite Nat2Z.id.
Qed.

Lemma index_Some (i : Z) (n : nat) : index i = Some n → i = Z.of_nat n.
Proof.
  unfold index. destruct (decide (0 ≤ i)); [|done].
  intros [= <-]. lia.
Qed.

Lemma index_in_range (i : Z) :
  0 ≤ i → ∃ n, index i = Some n ∧ i = Z.of_nat n.
Proof.
  intros Hi. exists (Z.to_nat i). unfold index.
  destruct (decide (0 ≤ i)); [|lia]. split; [done|lia].
Qed.

Lemma get_cell (g : list (list Z)) (r c : nat) :
  get g (Z.of_nat r) (Z.of_nat c) = cell g r c.
Proof. unfold get. by rewrite !index_of_nat. Qed.

Lemma square_row (n : nat) (g : list (list Z)) (r : nat) (row : list Z) :
  square n g → g !! r = Some row → length row = n.
Proof.
  intros [_ Hrows] Hrow. by eapply (proj1 (Forall_lookup _ _) Hrows).
Qed.

Lemma cell_is_Some (n : nat) (g : list (list Z)) (r c : nat) :
  square n g → (r < n)%nat → (c < n)%nat → is_Some (cell g r c).
Proof.
  intros Hsq Hr Hc. unfold cell.
  destruct (lookup_lt_is_Some_2 g r) as [row Hrow]; [destruct Hsq; lia|].
  rewrite Hrow. simpl. apply lookup_lt_is_Some_2.
  by rewrite (square_row n g r row).
Qed.

Lemma cell_Some_lt (n : nat) (g : list (list Z)) (r c : nat) (p : Z) :
  square n g → cell g r c = Some p → (r < n)%nat ∧ (c < n)%nat.
Proof.
  intros Hsq. unfold cell. destruct (g !! r) as [row|] eqn:Hrow; [|done].
  simpl. intros Hc. split.
  - destruct Hsq as [<- _]. by eapply lookup_lt_Some.
  - rewrite <- (square_row n g r row Hsq Hrow). by eapply lookup_lt_Some.
Qed.

(** What [m[y][x] = p] does to the cells, when it does not panic. *)
Lemma set_cells (g g' : list (list Z)) (y x p : Z) :
  set g y x p = Ok g' →
  map length g' = map length g ∧
  ∀ r c, cell g' r c =
         if decide ((y, x) = (Z.of_nat r, Z.of_nat c)) then Some p
         else cell g r c.
Proof.
  unfold set.
  destruct (index y) as [ry|] eqn:Hy; [|done].
  destruct (index x) as [cx|] eqn:Hx; [|done].
  destruct (g !! ry) as [row|] eqn:Hrow; [|done].
  destruct (decide (cx < length row)%nat) as [Hlt|]; [|done].
  intros [= <-]. apply index_Some in Hy, Hx. subst y x. split.
  - apply list_eq. intros k. rewrite !list_lookup_fmap.
    destruct (decide (ry = k)) as [->|Hne].
    + rewrite list_lookup_insert_eq by (by eapply lookup_lt_Some).
      rewrite Hrow. simpl. by rewrite length_insert.
    + by rewrite list_lookup_insert_ne.
  - intros r c. unfold cell.
    destruct (decide (ry = r)) as [->|Hne].
    + rewrite list_lookup_insert_eq by (by eapply lookup_lt_Some).
      rewrite Hrow. simpl.
      destruct (decide (cx = c)) as [->|Hnc].
      * rewrite list_lookup_insert_eq by done. by rewrite decide_True.
      * rewrite list_lookup_insert_ne by done.
        rewrite decide_False; [done|]. intros [= ?]. lia.
    + rewrite list_lookup_insert_ne by done.
      rewrite decide_False; [done|]. intros [= ? ?]. lia.
Qed.

Lemma set_in_range (n : nat) (g : list (list Z)) (y x p : Z) :
  square n g → 0 ≤ y < Z.of_nat n → 0 ≤ x < Z.of_nat n →
  ∃ g', set g y x p = Ok g'.
Proof.
  intros Hsq Hy Hx. unfold set.
  destruct (index_in_range y) as (r & -> & ->); [lia|].
  destruct (index_in_range x) as (c & -> & ->); [lia|].
  destruct (lookup_lt_is_Some_2 g r) as [row Hrow]; [destruct Hsq; lia|].
  rewrite Hrow. rewrite (square_row n g r row Hsq Hrow).
  destruct (decide (c < n)%nat); [eauto|lia].
Qed.

Lemma square_shape (n : nat) (g g' : list (list Z)) :
  map length g' = map length g → square n g → square n g'.
Proof.
  intros Hshape [Hlen Hrows]. split.
  - by rewrite <- Hlen, <- (length_map length g'), Hshape, length_map.
  - apply Forall_lookup. intros k row Hk.
    assert (Hk' : map length g' !! k = Some (length row))
      by (by rewrite list_lookup_fmap, Hk).
    rewrite Hshape, list_lookup_fmap in Hk'.
    destruct (g !! k) as [row'|] eqn:Hrow'; [|done].
    injection Hk' as <-. by eapply (proj1 (Forall_lookup _ _) Hrows).
Qed.

(** ** A sequence of stores *)

Lemma store_cells (n : nat) (ws : list write) (g : list (list Z)) :
  square n g → Forall (in_grid n) ws →
  ∃ g', store ws g = Ok g' ∧ square n g' ∧
        ∀ r c, cell g' r c =
               match written ws (Z.of_nat r) (Z.of_nat c) with
               | Some p => Some p
               | None => cell g r c
               end.
Proof.
  intros Hsq Hws. revert g Hsq.
  induction ws as [|[[y x] p] ws IH]; intros g Hsq.
  - exists g. split; [done|]. by split.
  - apply Forall_cons_1 in Hws as [[Hy Hx] Hws]. simpl in Hy, Hx.
    specialize (IH Hws).
    destruct (set_in_range n g y x p Hsq Hy Hx) as [g1 Hset].
    destruct (set_cells _ _ _ _ _ Hset) as [Hshape Hcells].
    destruct (IH g1 (square_shape n g g1 Hshape Hsq)) as (g' & Hst & Hsq' & Hc').
    exists g'. split; [|split; [done|]].
    + unfold store in *. simpl. rewrite Hset. exact Hst.
    + intros r c. rewrite Hc'. simpl.
      destruct (written ws (Z.of_nat r) (Z.of_nat c)); [done|].
      rewrite Hcells. by repeat case_decide.
Qed.

Lemma written_Some (ws : list write) (y x p : Z) :
  written ws y x = Some p → (y, x, p) ∈ ws.
Proof.
  induction ws as [|[[y' x'] p'] ws IH]; simpl; [done|].
  destruct (written ws y x) as [q|].
  - intros [= ->]. right. by apply IH.
  - destruct (decide ((y', x') = (y, x))) as [[= -> ->]|]; [|done].
    intros [= ->]. left.
Qed.

Lemma written_None (ws : list write) (y x : Z) :
  written ws y x = None ↔ (y, x) ∉ ws.*1.
Proof.
  induction ws as [|[[y' x'] p'] ws IH]; simpl.
  - split; [intros _; apply not_elem_of_nil|done].
  - rewrite not_elem_of_cons. destruct (written ws y x) as [q|].
    + split; [done|]. intros [_ Hn]. by apply IH in Hn.
    + destruct (decide ((y', x') = (y, x))) as [Heq|Hne].
      * split; [done|]. intros [Hn _]. by destruct Hn.
      * split; [|done]. intros _. split; [congruence|]. by apply IH.
Qed.

Lemma written_NoDup (ws : list write) (y x p : Z) :
  NoDup ws.*1 → (y, x, p) ∈ ws → written ws y x = Some p.
Proof.
  induction ws as [|[[y' x'] p'] ws IH]; simpl.
  - intros _ Hin. by apply elem_of_nil in Hin.
  - intros Hnd Hin.
    pose proof (NoDup_cons_1_1 _ _ Hnd) as Hfresh.
    apply NoDup_cons_1_2 in Hnd.
    apply elem_of_cons in Hin as [[= <- <- <-]|Hin].
    + apply written_None in Hfresh. rewrite Hfresh.
      by rewrite decide_True.
    + by rewrite (IH Hnd Hin).
Qed.

(** ** fplan as a sequence of stores *)

Lemma seqZ_0_15 : seqZ 0 15 = [0; 1; 2; 3; 4; 5; 6; 7; 8; 9; 10; 11; 12; 13; 14].
Proof. reflexivity. Qed.

Lemma elem_of_seqZ_0_15 (i : Z) : i ∈ seqZ 0 15 ↔ 0 ≤ i < 15.
Proof. rewrite elem_of_seqZ. lia. Qed.

Lemma store_app (ws1 ws2 : list write) (g : list (list Z)) :
  store (ws1 ++ ws2) g = g' ← store ws1 g; store ws2 g'.
Proof.
  revert g. induction ws1 as [|w ws1 IH]; intros g; [done|].
  unfold store in *. simpl. destruct (set g w.1.1 w.1.2 w.2); simpl; auto.
Qed.

Lemma format_loop_store (fb siz : Z) (ks : list Z) (g : list (list Z)) :
  for_each (λ i g,
      let pix := format_pixel fb i in
      g ← (if i <? 6 then set g i 8 pix
            else if i <? 8 then set g (i + 1) 8 pix
            else if i <? 9 then set g 8 7 pix
            else set g 8 (14 - i) pix);
      (if i <? 8 then set g 8 (siz - 1 - i) pix
       else set g (siz - 1 - (14 - i)) 8 pix)) ks g
  = store (flat_map (format_bit_writes fb siz) ks) g.
Proof.
  revert g. induction ks as [|i ks IH]; intros g; [done|].
  unfold store in *. cbn [flat_map format_bit_writes app for_each].
  unfold format_cell_a, format_cell_b.
  repeat case_match; cbn [fst snd];
    (destruct (set g _ _ _) as [g1| | |]; simpl; [|done..]);
    (destruct (set g1 _ _ _) as [g2| | |]; simpl; [|done..]); apply IH.
Qed.

Lemma fplan_store (l m : Z) (p : Plan) :
  fplan l m p =
  g ← store (format_writes (format_bits l m) (len (Pixel p))) (Pixel p);
  Ok (with_Pixel p g).
Proof. unfold fplan, format_writes. by rewrite format_loop_store. Qed.

(** ** The format pixel *)

Lemma land_shiftr_1 (a i : Z) :
  0 ≤ i → (Z.land (Z.shiftr a i) 1 =? 1) = Z.testbit a i.
Proof.
  intros Hi. change 1 with (Z.ones 1) at 1.
  rewrite Z.land_ones by lia. change (2 ^ 1) with 2.
  rewrite <- Z.bit0_mod, Z.shiftr_spec by lia. rewrite Z.add_0_l.
  by destruct (Z.testbit a i).
Qed.

Lemma format_pixel_fields (fb i : Z) :
  0 ≤ i < 15 →
  Role (format_pixel fb i) = Format ∧
  Offset (format_pixel fb i) = i ∧
  is_black (format_pixel fb i)
    = xorb (Z.testbit fb i) (Z.testbit format_invert i) ∧
  is_invert (format_pixel fb i) = Z.testbit format_invert i.
Proof.
  intros Hi. unfold format_pixel. rewrite !land_shiftr_1 by lia.
  assert (Hcases : i ∈ seqZ 0 15) by (apply elem_of_seqZ; lia).
  rewrite seqZ_0_15 in Hcases.
  repeat (apply elem_of_cons in Hcases as [->|Hcases];
          [by destruct (Z.testbit fb _)|]).
  by apply elem_of_nil in Hcases.
Qed.

(** ** The thirty format cells *)

Lemma format_writes_cells (fb siz : Z) :
  (format_writes fb siz).*1 = format_cells siz.
Proof. reflexivity. Qed.

Lemma elem_of_format_writes (fb siz : Z) (w : write) :
  w ∈ format_writes fb siz ↔
  ∃ i, 0 ≤ i < 15 ∧ w.2 = format_pixel fb i ∧
       (w.1 = format_cell_a i ∨ w.1 = format_cell_b siz i).
Proof.
  unfold format_writes. rewrite list_elem_of_In, in_flat_map. split.
  - intros (i & Hi & Hw). apply list_elem_of_In, elem_of_seqZ_0_15 in Hi.
    exists i. split; [done|].
    destruct Hw as [ <- | [ <- | [] ] ]; simpl; auto.
  - intros (i & Hi & Hp & Hc). exists i. split.
    + by apply list_elem_of_In, elem_of_seqZ_0_15.
    + destruct w as [yx q]. simpl in *. subst q.
      destruct Hc as [ -> | -> ]; [by left|by right; left].
Qed.

Lemma format_writes_in_grid (fb : Z) (n : nat) :
  (21 ≤ n)%nat → Forall (in_grid n) (format_writes fb (Z.of_nat n)).
Proof.
  intros Hn. apply Forall_forall. intros [[y x] q] Hw.
  apply list_elem_of_In in Hw.
  apply elem_of_format_writes in Hw as (i & Hi & _ & Hc). simpl in Hc.
  unfold in_grid, format_cell_a, format_cell_b in *. simpl.
  destruct Hc as [Hc|Hc]; repeat case_match; injection Hc as -> ->; lia.
Qed.

Lemma format_cells_NoDup (siz : Z) : 21 ≤ siz → NoDup (format_cells siz).
Proof.
  intros Hsiz. apply NoDup_ListNoDup. unfold format_cells.
  rewrite seqZ_0_15. cbn.
  repeat (constructor;
          [intros Hin; cbn in Hin;
           repeat (destruct Hin as [Hin|Hin]; [injection Hin; lia|]);
           exact Hin|]).
  constructor.
Qed.

(** ** mplan cell by cell *)

Lemma cell_imap (f : nat → nat → Z → Z) (g : list (list Z)) (r c : nat) :
  cell (imap (λ y row, imap (λ x pix, f y x pix) row) g) r c
  = f r c <$> cell g r c.
Proof.
  unfold cell. rewrite list_lookup_imap.
  destruct (g !! r) as [row|]; [|done]. simpl. by rewrite list_lookup_imap.
Qed.

Lemma imap_shape (f : nat → nat → Z → Z) (g : list (list Z)) :
  map length (imap (λ y row, imap (λ x pix, f y x pix) row) g) = map length g.
Proof.
  apply list_eq. intros k. rewrite !list_lookup_fmap, list_lookup_imap.
  destruct (g !! k); [|done]. simpl. by rewrite length_imap.
Qed.

Lemma mfunc_lookup (m : Z) :
  0 ≤ m ≤ 7 → ∃ f, index m ≫= (λ k, mfunc !! k) = Some f.
Proof.
  intros Hm. destruct (index_in_range m) as (k & -> & ->); [lia|]. simpl.
  apply lookup_lt_is_Some_2. simpl. lia.
Qed.

Lemma mfunc_lookup_None (m : Z) :
  m < 0 ∨ 7 < m → index m ≫= (λ k, mfunc !! k) = None.
Proof.
  intros Hm. unfold index. destruct (decide (0 ≤ m)); [|done]. simpl.
  apply lookup_ge_None_2. simpl. lia.
Qed.

Lemma mplan_Ok (m : Z) (p : Plan) :
  0 ≤ m ≤ 7 →
  ∃ f, index m ≫= (λ k, mfunc !! k) = Some f ∧
       mplan m p =
       Ok (with_Pixel (with_Mask p m)
             (imap (λ y row, imap (λ x pix, mask_pixel f y x pix) row) (Pixel p))).
Proof.
  intros Hm. destruct (mfunc_lookup m Hm) as [f Hf]. exists f.
  split; [done|]. unfold mplan. by rewrite Hf.
Qed.

Lemma mplan_Panic (m : Z) (p : Plan) : m < 0 ∨ 7 < m → mplan m p = Panic.
Proof. intros Hm. unfold mplan. by rewrite mfunc_lookup_None. Qed.

(** A pixel whose role is neither data nor check is left alone. *)
Lemma mask_pixel_other (f : Z → Z → bool) (y x : nat) (pix : Z) :
  Role pix ≠ Data → Role pix ≠ Check → mask_pixel f y x pix = pix.
Proof.
  intros Hd Hc. unfold mask_pixel.
  destruct (Z.eqb_spec (Role pix) Data); [done|].
  by destruct (Z.eqb_spec (Role pix) Check).
Qed.

(** ** Scanning a grid with its indices *)

Lemma row_all_lookup (f : nat → Z → bool) (c0 : nat) (row : list Z) :
  row_all f c0 row = true →
  ∀ c p, row !! c = Some p → f (c0 + c)%nat p = true.
Proof.
  revert c0. induction row as [|q row IH]; intros c0 Hall c p Hc; [done|].
  simpl in Hall. apply andb_true_iff in Hall as [Hq Hall].
  destruct c as [|c]; simpl in Hc.
  - injection Hc as <-. by rewrite Nat.add_0_r.
  - rewrite <- Nat.add_succ_comm. by apply IH.
Qed.

Lemma rows_all_lookup (f : nat → nat → Z → bool) (r0 : nat)
    (g : list (list Z)) :
  rows_all f r0 g = true →
  ∀ r c p, cell g r c = Some p → f (r0 + r)%nat c p = true.
Proof.
  revert r0. induction g as [|row g IH]; intros r0 Hall r c p Hc; [done|].
  simpl in Hall. apply andb_true_iff in Hall as [Hrow Hall].
  destruct r as [|r]; unfold cell in Hc; simpl in Hc.
  - rewrite Nat.add_0_r. by apply (row_all_lookup (f r0) 0 row Hrow c p).
  - rewrite <- Nat.add_succ_comm. by apply IH.
Qed.

Lemma cells_all_lookup (f : nat → nat → Z → bool) (g : list (list Z)) :
  cells_all f g = true → ∀ r c p, cell g r c = Some p → f r c p = true.
Proof. intros Hall r c p. by apply (rows_all_lookup f 0 g Hall r c p). Qed.

(** ** The forty versions *)

Lemma all_versions (P : Z → bool) :
  forallb P (seqZ 1 40) = true → ∀ v, 1 ≤ v ≤ 40 → P v = true.
Proof.
  intros Hall v Hv. rewrite forallb_forall in Hall. apply Hall.
  apply list_elem_of_In, elem_of_seqZ. lia.
Qed.

Lemma vplan_check_all : forallb vplan_check (seqZ 1 40) = true.
Proof. vm_compute. reflexivity. Qed.

Lemma vplan_valid (v : Z) :
  1 ≤ v ≤ 40 →
  ∃ p0, vplan v = Ok p0 ∧
        square (Z.to_nat (side v)) (Pixel p0) ∧
        (∀ r c pix, cell (Pixel p0) r c = Some pix → Role pix < Format) ∧
        (∀ y x, (y, x) ∈ format_cells (side v) → get (Pixel p0) y x = Some 0).
Proof.
  intros Hv. pose proof (all_versions _ vplan_check_all v Hv) as Hc.
  unfold vplan_check in Hc. destruct (vplan v) as [p0| | |]; try done.
  apply andb_true_iff in Hc as [Hc Hfmt].
  apply andb_true_iff in Hc as [Hsq Hroles].
  exists p0. split; [done|]. split; [by apply bool_decide_eq_true in Hsq|].
  split.
  - intros r c pix Hcell.
    apply Z.ltb_lt. by apply (cells_all_lookup _ _ Hroles r c pix).
  - intros y x Hin. rewrite forallb_forall in Hfmt.
    apply list_elem_of_In in Hin. apply Hfmt in Hin.
    by apply bool_decide_eq_true in Hin.
Qed.

Lemma side_nat (v : Z) :
  1 ≤ v ≤ 40 →
  (21 ≤ Z.to_nat (side v))%nat ∧ Z.of_nat (Z.to_nat (side v)) = side v.
Proof. unfold side. lia. Qed.

(** ** The stages after vplan *)

Lemma written_format (fb siz y x q : Z) :
  written (format_writes fb siz) y x = Some q →
  ∃ i, 0 ≤ i < 15 ∧ q = format_pixel fb i ∧
       ((y, x) = format_cell_a i ∨ (y, x) = format_cell_b siz i).
Proof. intros Hw. by apply written_Some, elem_of_format_writes in Hw. Qed.

Lemma written_format_Role (fb siz y x q : Z) :
  written (format_writes fb siz) y x = Some q → Role q = Format.
Proof.
  intros Hw. apply written_format in Hw as (i & Hi & -> & _).
  by apply format_pixel_fields.
Qed.

Lemma fplan_cells (l m : Z) (p0 : Plan) (n : nat) :
  (21 ≤ n)%nat → square n (Pixel p0) →
  ∃ g1, fplan l m p0 = Ok (with_Pixel p0 g1) ∧ square n g1 ∧
        ∀ r c, cell g1 r c =
               match written (format_writes (format_bits l m) (Z.of_nat n))
                             (Z.of_nat r) (Z.of_nat c) with
               | Some q => Some q
               | None => cell (Pixel p0) r c
               end.
Proof.
  intros Hn Hsq. rewrite fplan_store.
  assert (Hlen : len (Pixel p0) = Z.of_nat n) by (destruct Hsq as [<- _]; done).
  rewrite Hlen.
  destruct (store_cells n (format_writes (format_bits l m) (Z.of_nat n))
              (Pixel p0) Hsq (format_writes_in_grid _ n Hn))
    as (g1 & Hst & Hsq1 & Hcells).
  exists g1. rewrite Hst. split; [done|]. by split.
Qed.

(** The whole construction for a valid version and mask: the final grid is
    the grid of [vplan] with the format stores applied; [mplan] finds no
    data or check cell to flag. *)
Lemma NewPlan_cells (v l m : Z) :
  1 ≤ v ≤ 40 → 0 ≤ m ≤ 7 →
  ∃ p0 p, vplan v = Ok p0 ∧ NewPlan v l m = Ok p ∧
          square (Z.to_nat (side v)) (Pixel p0) ∧
          square (Z.to_nat (side v)) (Pixel p) ∧
          (∀ r c pix, cell (Pixel p0) r c = Some pix → Role pix < Format) ∧
          (∀ y x, (y, x) ∈ format_cells (side v) →
                  get (Pixel p0) y x = Some 0) ∧
          ∀ r c, cell (Pixel p) r c =
                 match written (format_writes (format_bits l m) (side v))
                               (Z.of_nat r) (Z.of_nat c) with
                 | Some q => Some q
                 | None => cell (Pixel p0) r c
                 end.
Proof.
  intros Hv Hm.
  destruct (vplan_valid v Hv) as (p0 & Hvp & Hsq0 & Hroles & Hblank).
  destruct (side_nat v Hv) as [Hn Hside].
  destruct (fplan_cells l m p0 _ Hn Hsq0) as (g1 & Hfp & Hsq1 & Hcells).
  rewrite Hside in Hcells.
  destruct (mplan_Ok m (with_Level (with_Pixel p0 g1) l) Hm) as (f & _ & Hmp).
  eexists p0, _. split; [done|]. split.
  { unfold NewPlan. rewrite Hvp. simpl. rewrite Hfp. simpl. exact Hmp. }
  split; [done|]. split.
  { simpl. eapply square_shape; [apply imap_shape|done]. }
  split; [done|]. split; [done|].
  intros r c. cbn [Pixel with_Pixel with_Mask with_Level].
  rewrite cell_imap, Hcells.
  destruct (written _ _ _) as [q|] eqn:Hw; cbn [fmap option_fmap option_map].
  - apply written_format_Role in Hw.
    rewrite mask_pixel_other; rewrite ?Hw; unfold Format, Data, Check; [done|lia..].
  - destruct (cell (Pixel p0) r c) as [q|] eqn:Hq; [|done].
    cbn [fmap option_fmap option_map].
    apply Hroles in Hq. unfold Format in Hq.
    rewrite mask_pixel_other; unfold Data, Check; [done|lia..].
Qed.

(** The same facts read with Go indices. *)
Lemma get_Some_cell (g : list (list Z)) (y x pix : Z) :
  get g y x = Some pix →
  ∃ r c, y = Z.of_nat r ∧ x = Z.of_nat c ∧ cell g r c = Some pix.
Proof.
  unfold get. destruct (index y) as [r|] eqn:Hy; [|done].
  destruct (index x) as [c|] eqn:Hx; [|done]. simpl.
  apply index_Some in Hy, Hx. eauto.
Qed.

Lemma Role_nonneg (pix : Z) : 0 ≤ Role pix.
Proof. unfold Role. apply Z.land_nonneg. lia. Qed.

Lemma NewPlan_get (v l m : Z) :
  1 ≤ v ≤ 40 → 0 ≤ m ≤ 7 →
  ∃ p0 p, vplan v = Ok p0 ∧ NewPlan v l m = Ok p ∧
          square (Z.to_nat (side v)) (Pixel p) ∧
          (∀ y x pix, get (Pixel p0) y x = Some pix → 0 ≤ Role pix < Format) ∧
          (∀ y x, (y, x) ∈ format_cells (side v) →
                  get (Pixel p0) y x = Some 0) ∧
          ∀ y x, get (Pixel p) y x =
                 match written (format_writes (format_bits l m) (side v)) y x with
                 | Some q => Some q
                 | None => get (Pixel p0) y x
                 end.
Proof.
  intros Hv Hm.
  destruct (NewPlan_cells v l m Hv Hm)
    as (p0 & p & Hvp & Hnp & _ & Hsq & Hroles & Hblank & Hcells).
  exists p0, p. repeat (split; [done|]). split; [|split; [done|]].
  - intros y x pix Hget. apply get_Some_cell in Hget as (r & c & _ & _ & Hc).
    split; [apply Role_nonneg|by eapply Hroles].
  - intros y x. destruct (written _ y x) as [q|] eqn:Hw.
    + pose proof Hw as Hin. apply written_Some in Hin.
      destruct (side_nat v Hv) as [Hn Hside].
      pose proof (format_writes_in_grid (format_bits l m) _ Hn) as Hall.
      rewrite Hside in Hall.
      apply list_elem_of_In in Hin.
      apply (proj1 (Forall_forall _ _) Hall) in Hin as [Hy Hx].
      simpl in Hy, Hx.
      rewrite <- (Z2Nat.id y), <- (Z2Nat.id x) in Hw |- * by lia.
      by rewrite get_cell, Hcells, Hw.
    + unfold get. destruct (index y) as [r|] eqn:Hy; [|done].
      destruct (index x) as [c|] eqn:Hx; [|done]. simpl.
      apply index_Some in Hy, Hx. subst y x. by rewrite Hcells, Hw.
Qed.

(** ** Success, size and failures of NewPlan *)

(** C2. For every version v in 1..40, any level and any mask id in 0..7,
    NewPlan returns a Plan whose grid has exactly 4v+17 rows, each of
    exactly 4v+17 cells. *)
Theorem NewPlan_grid_side (v l m : Z) :
  1 ≤ v ≤ 40 → 0 ≤ m ≤ 7 →
  ∃ p, NewPlan v l m = Ok p ∧
       len (Pixel p) = 4 * v + 17 ∧
       Forall (λ row, Z.of_nat (length row) = 4 * v + 17) (Pixel p).
Proof.
  intros Hv Hm.
  destruct (NewPlan_cells v l m Hv Hm) as (_ & p & _ & Hnp & _ & Hsq & _).
  destruct (side_nat v Hv) as [_ Hside]. unfold side in *.
  exists p. split; [done|]. destruct Hsq as [Hlen Hrows]. split.
  - unfold len. rewrite Hlen. lia.
  - eapply Forall_impl; [|exact Hrows]. intros row Hrow. simpl in Hrow. lia.
Qed.

Lemma NewPlan_grid_side_witness :
  ∃ p, NewPlan 2 L 3 = Ok p ∧
       len (Pixel p) = 4 * 2 + 17 ∧
       Forall (λ row, Z.of_nat (length row) = 4 * 2 + 17) (Pixel p).
Proof. apply (NewPlan_grid_side 2 L 3); lia. Defined.

Lemma vplan_invalid (v : Z) :
  v < 1 ∨ 40 < v → vplan v = Err (InvalidVersion v).
Proof.
  intros Hv. unfold vplan.
  destruct (Z.ltb_spec v 1); [done|]. destruct (Z.ltb_spec 40 v); [done|lia].
Qed.

Lemma vplan_fplan_Ok (v l m : Z) :
  1 ≤ v ≤ 40 →
  ∃ p0 p1, vplan v = Ok p0 ∧ fplan l m p0 = Ok p1.
Proof.
  intros Hv. destruct (vplan_valid v Hv) as (p0 & Hvp & Hsq0 & _).
  destruct (side_nat v Hv) as [Hn _].
  destruct (fplan_cells l m p0 _ Hn Hsq0) as (g1 & Hfp & _). eauto.
Qed.

(** C3. For a version below 1 or above 40, with any level and mask,
    NewPlan returns the InvalidVersion error and no Plan; and whenever
    NewPlan returns an error at all, it is that error for an out-of-range
    version. *)
Theorem NewPlan_invalid_version (v l m : Z) :
  v < 1 ∨ 40 < v →
  NewPlan v l m = Err (InvalidVersion v) ∧
  ∀ v' l' m' e, NewPlan v' l' m' = Err e →
                (v' < 1 ∨ 40 < v') ∧ e = InvalidVersion v'.
Proof.
  intros Hv. split.
  - unfold NewPlan. by rewrite vplan_invalid.
  - intros v' l' m' e He.
    destruct (decide (1 ≤ v' ≤ 40)) as [Hin|Hout].
    + destruct (vplan_fplan_Ok v' l' m' Hin) as (p0 & p1 & Hvp & Hfp).
      unfold NewPlan in He. rewrite Hvp in He. simpl in He.
      rewrite Hfp in He. simpl in He. unfold mplan in He.
      by destruct (index m' ≫= _).
    + assert (Hv' : v' < 1 ∨ 40 < v') by lia. split; [done|].
      unfold NewPlan in He. rewrite (vplan_invalid v' Hv') in He.
      by injection He as <-.
Qed.

Lemma NewPlan_invalid_version_witness :
  NewPlan 41 L 0 = Err (InvalidVersion 41) ∧
  ∀ v' l' m' e, NewPlan v' l' m' = Err e →
                (v' < 1 ∨ 40 < v') ∧ e = InvalidVersion v'.
Proof. apply (NewPlan_invalid_version 41 L 0). right. lia. Defined.

(** C10. For a valid version and any level, a mask id outside 0..7 makes
    the lookup [mfunc[m]] in mplan fall outside the table: vplan and fplan
    have succeeded, mplan panics, and NewPlan panics instead of returning
    an error.  For a mask id in 0..7 the lookup is in bounds and mplan
    returns a Plan, whatever Plan it is given. *)
Theorem NewPlan_mask_out_of_range (v l m : Z) :
  1 ≤ v ≤ 40 → m < 0 ∨ 7 < m →
  (∃ p0 p1, vplan v = Ok p0 ∧ fplan l m p0 = Ok p1 ∧
            index m ≫= (λ k, mfunc !! k) = None ∧
            mplan m (with_Level p1 l) = Panic) ∧
  NewPlan v l m = Panic ∧
  (∀ e, NewPlan v l m ≠ Err e) ∧
  ∀ m' p, 0 ≤ m' ≤ 7 →
          is_Some (index m' ≫= (λ k, mfunc !! k)) ∧ ∃ p', mplan m' p = Ok p'.
Proof.
  intros Hv Hm.
  destruct (vplan_fplan_Ok v l m Hv) as (p0 & p1 & Hvp & Hfp).
  assert (Hnp : NewPlan v l m = Panic).
  { unfold NewPlan. rewrite Hvp. simpl. rewrite Hfp. simpl.
    by apply mplan_Panic. }
  split; [|split; [done|split]].
  - exists p0, p1. repeat (split; [done|]). split.
    + by apply mfunc_lookup_None.
    + by apply mplan_Panic.
  - intros e. by rewrite Hnp.
  - intros m' p Hm'. destruct (mplan_Ok m' p Hm') as (f & Hf & Hmp).
    split; [by exists f|eauto].
Qed.

Lemma NewPlan_mask_out_of_range_witness : NewPlan 1 L 8 = Panic.
Proof. apply (NewPlan_mask_out_of_range 1 L 8); lia. Defined.

(** The iteration budget of the alignment loops is never used up: NewPlan
    returns a Plan, returns an error or panics. *)
Lemma NewPlan_terminates (v l m : Z) : NewPlan v l m ≠ Diverge.
Proof.
  destruct (decide (1 ≤ v ≤ 40)) as [Hin|Hout].
  - destruct (vplan_fplan_Ok v l m Hin) as (p0 & p1 & Hvp & Hfp).
    unfold NewPlan. rewrite Hvp. simpl. rewrite Hfp. simpl. unfold mplan.
    by destruct (index m ≫= _).
  - unfold NewPlan. rewrite vplan_invalid by lia. done.
Qed.

(** ** Roles in the finished grid *)

(** C1, as stated, fails: in the Plan for version 1, level L, mask 0 the
    cell in row 10, column 10 lies outside every pattern and has role 0,
    neither Data nor Check. *)
Lemma NewPlan_data_check_unmarked :
  ∃ p, NewPlan 1 L 0 = Ok p ∧ get (Pixel p) 10 10 = Some 0 ∧
       ¬ data_check_marked p.
Proof.
  destruct (NewPlan 1 L 0) as [p| | |] eqn:Hp; try (vm_compute in Hp; done).
  exists p. split; [done|].
  assert (Hget : get (Pixel p) 10 10 = Some 0).
  { vm_compute in Hp. injection Hp as <-. reflexivity. }
  split; [done|]. intros Hmarked.
  destruct (Hmarked 10 10 0 Hget) as [Hr|Hr]; by vm_compute.
Qed.

(** C1, amended.  For every version in 1..40, every level and every mask
    id in 0..7, every cell of the grid returned by NewPlan has role none
    (0), position, alignment, timing or format; no cell has role Data or
    Check, and a cell outside the four patterns has role 0. *)
Theorem NewPlan_roles (v l m : Z) :
  1 ≤ v ≤ 40 → 0 ≤ m ≤ 7 →
  ∃ p, NewPlan v l m = Ok p ∧
       ∀ y x pix, get (Pixel p) y x = Some pix →
         (Role pix = 0 ∨ Role pix = Position ∨ Role pix = Alignment
          ∨ Role pix = Timing ∨ Role pix = Format) ∧
         Role pix ≠ Data ∧ Role pix ≠ Check.
Proof.
  intros Hv Hm.
  destruct (NewPlan_get v l m Hv Hm)
    as (p0 & p & _ & Hnp & _ & Hroles & _ & Hget).
  exists p. split; [done|]. intros y x pix Hpix. rewrite Hget in Hpix.
  assert (HR : 0 ≤ Role pix ≤ Format).
  { destruct (written _ y x) as [q|] eqn:Hw.
    - injection Hpix as ->. apply written_format_Role in Hw.
      rewrite Hw. unfold Format. lia.
    - apply Hroles in Hpix. lia. }
  unfold Position, Alignment, Timing, Format, Data, Check in *. lia.
Qed.

Lemma NewPlan_roles_witness :
  ∃ p, NewPlan 1 L 0 = Ok p ∧
       ∀ y x pix, get (Pixel p) y x = Some pix →
         (Role pix = 0 ∨ Role pix = Position ∨ Role pix = Alignment
          ∨ Role pix = Timing ∨ Role pix = Format) ∧
         Role pix ≠ Data ∧ Role pix ≠ Check.
Proof. apply (NewPlan_roles 1 L 0); lia. Defined.

(** ** Frame: what fplan and mplan leave alone *)

Lemma written_format_cell (fb siz y x q : Z) :
  written (format_writes fb siz) y x = Some q → (y, x) ∈ format_cells siz.
Proof.
  intros Hw. apply written_Some in Hw. rewrite <- (format_writes_cells fb).
  apply list_elem_of_fmap. by exists (y, x, q).
Qed.

(** C9. For every valid version, level and mask, a cell whose role after
    vplan is position, alignment or timing holds the same pixel after
    fplan and in the Plan returned by NewPlan; in particular its black
    flag is the one set by vplan. *)
Theorem NewPlan_geometry_frame (v l m : Z) :
  1 ≤ v ≤ 40 → 0 ≤ m ≤ 7 →
  ∃ p0 p1 p, vplan v = Ok p0 ∧ fplan l m p0 = Ok p1 ∧ NewPlan v l m = Ok p ∧
    ∀ y x pix, get (Pixel p0) y x = Some pix →
      Role pix = Position ∨ Role pix = Alignment ∨ Role pix = Timing →
      get (Pixel p1) y x = Some pix ∧ get (Pixel p) y x = Some pix ∧
      ∀ pix', get (Pixel p) y x = Some pix' → is_black pix' = is_black pix.
Proof.
  intros Hv Hm.
  destruct (NewPlan_get v l m Hv Hm)
    as (p0 & p & Hvp & Hnp & _ & _ & Hblank & Hget).
  destruct (vplan_valid v Hv) as (p0' & Hvp' & Hsq0 & _).
  rewrite Hvp in Hvp'. injection Hvp' as <-.
  destruct (side_nat v Hv) as [Hn Hside].
  destruct (fplan_cells l m p0 _ Hn Hsq0) as (g1 & Hfp & _ & Hcells).
  rewrite Hside in Hcells.
  exists p0, (with_Pixel p0 g1), p. repeat (split; [done|]).
  intros y x pix Hpix Hrole.
  assert (Hfree : written (format_writes (format_bits l m) (side v)) y x = None).
  { destruct (written _ y x) as [q|] eqn:Hw; [|done].
    apply written_format_cell, Hblank in Hw. rewrite Hw in Hpix.
    injection Hpix as <-. by destruct Hrole as [Hr|[Hr|Hr]]. }
  assert (Hfinal : get (Pixel p) y x = Some pix) by (by rewrite Hget, Hfree).
  split; [|split; [done|]].
  - destruct (get_Some_cell _ _ _ _ Hpix) as (r & c & -> & -> & Hc).
    rewrite get_cell. cbn [Pixel with_Pixel]. by rewrite Hcells, Hfree.
  - intros pix' Hpix'. rewrite Hfinal in Hpix'. by injection Hpix' as <-.
Qed.

Lemma NewPlan_geometry_frame_witness :
  ∃ p0 p1 p, vplan 7 = Ok p0 ∧ fplan H 5 p0 = Ok p1 ∧ NewPlan 7 H 5 = Ok p ∧
    ∀ y x pix, get (Pixel p0) y x = Some pix →
      Role pix = Position ∨ Role pix = Alignment ∨ Role pix = Timing →
      get (Pixel p1) y x = Some pix ∧ get (Pixel p) y x = Some pix ∧
      ∀ pix', get (Pixel p) y x = Some pix' → is_black pix' = is_black pix.
Proof. apply (NewPlan_geometry_frame 7 H 5); lia. Defined.

(** ** The two copies of the format bits *)

Lemma format_cells_length (siz : Z) : length (format_cells siz) = 30%nat.
Proof. reflexivity. Qed.

Lemma format_cell_a_b (siz i : Z) :
  21 ≤ siz → 0 ≤ i < 15 →
  near_top_left (format_cell_a i) ∧
  near_other_corners siz (format_cell_b siz i) ∧
  format_cell_a i ≠ format_cell_b siz i.
Proof.
  intros Hsiz Hi.
  unfold near_top_left, near_other_corners, format_cell_a, format_cell_b.
  repeat case_match; simpl; (split; [lia|split; [lia|]]);
    intros Heq; injection Heq; lia.
Qed.

(** C6. For every valid version, level and mask the grid returned by
    NewPlan has exactly thirty format-role cells, pairwise distinct; for
    each bit index 0..14 exactly two of them carry that offset, one in the
    top-left corner and one in the strip near the other two finders, and
    the two hold the same pixel (role, offset, black and invert flags). *)
Theorem NewPlan_format_twice (v l m : Z) :
  1 ≤ v ≤ 40 → 0 ≤ m ≤ 7 →
  ∃ p cells, NewPlan v l m = Ok p ∧
    length cells = 30%nat ∧ NoDup cells ∧
    (∀ y x, (y, x) ∈ cells ↔
            ∃ pix, get (Pixel p) y x = Some pix ∧ Role pix = Format) ∧
    ∀ i, 0 ≤ i < 15 →
      ∃ a b pix, a ∈ cells ∧ b ∈ cells ∧ a ≠ b ∧
        near_top_left a ∧ near_other_corners (4 * v + 17) b ∧
        get (Pixel p) a.1 a.2 = Some pix ∧
        get (Pixel p) b.1 b.2 = Some pix ∧
        Role pix = Format ∧ Offset pix = i ∧
        ∀ y x pix', get (Pixel p) y x = Some pix' →
          Role pix' = Format → Offset pix' = i → (y, x) = a ∨ (y, x) = b.
Proof.
  intros Hv Hm.
  destruct (NewPlan_get v l m Hv Hm)
    as (p0 & p & _ & Hnp & _ & Hroles & _ & Hget).
  assert (Hsiz : 21 ≤ side v) by (unfold side; lia).
  replace (4 * v + 17) with (side v) by (unfold side; lia).
  set (fb := format_bits l m) in *.
  pose proof (format_cells_NoDup (side v) Hsiz) as Hnd.
  assert (Hwr : ∀ y x q, (y, x, q) ∈ format_writes fb (side v) →
                         get (Pixel p) y x = Some q).
  { intros y x q Hin. rewrite Hget, (written_NoDup _ y x q); [done| |done].
    by rewrite format_writes_cells. }
  assert (Hfmt : ∀ y x pix, get (Pixel p) y x = Some pix → Role pix = Format →
                            written (format_writes fb (side v)) y x = Some pix).
  { intros y x pix Hpix Hrole. rewrite Hget in Hpix.
    destruct (written _ y x) as [q|]; [done|].
    apply Hroles in Hpix. lia. }
  exists p, (format_cells (side v)).
  split; [done|]. split; [apply format_cells_length|]. split; [done|]. split.
  - intros y x. split.
    + intros Hin. rewrite <- (format_writes_cells fb) in Hin.
      apply list_elem_of_fmap in Hin as ([[y' x'] q] & [= <- <-] & Hin).
      exists q. split; [by apply Hwr|].
      apply elem_of_format_writes in Hin as (i & Hi & Hq & _).
      simpl in Hq. subst q. by apply format_pixel_fields.
    + intros (pix & Hpix & Hrole).
      by eapply written_format_cell, Hfmt.
  - intros i Hi.
    destruct (format_cell_a_b (side v) i Hsiz Hi) as (Hna & Hnb & Hab).
    destruct (format_pixel_fields fb i Hi) as (Hrole & Hoff & _).
    assert (Hina : (format_cell_a i, format_pixel fb i)
                   ∈ format_writes fb (side v)).
    { apply elem_of_format_writes. exists i. simpl. auto. }
    assert (Hinb : (format_cell_b (side v) i, format_pixel fb i)
                   ∈ format_writes fb (side v)).
    { apply elem_of_format_writes. exists i. simpl. auto. }
    exists (format_cell_a i), (format_cell_b (side v) i), (format_pixel fb i).
    split.
    { rewrite <- (format_writes_cells fb). apply list_elem_of_fmap.
      by exists (format_cell_a i, format_pixel fb i). }
    split.
    { rewrite <- (format_writes_cells fb). apply list_elem_of_fmap.
      by exists (format_cell_b (side v) i, format_pixel fb i). }
    repeat (split; [done|]). split.
    { destruct (format_cell_a i) as [ya xa]. by apply Hwr. }
    split.
    { destruct (format_cell_b (side v) i) as [yb xb]. by apply Hwr. }
    repeat (split; [done|]).
    intros y x pix' Hpix' Hrole' Hoff'.
    apply Hfmt in Hpix'; [|done].
    apply written_format in Hpix' as (j & Hj & -> & Hpos).
    destruct (format_pixel_fields fb j Hj) as (_ & Hoffj & _).
    rewrite Hoffj in Hoff'. by subst j.
Qed.

Lemma NewPlan_format_twice_witness :
  ∃ p cells, NewPlan 3 Q 6 = Ok p ∧
    length cells = 30%nat ∧ NoDup cells ∧
    (∀ y x, (y, x) ∈ cells ↔
            ∃ pix, get (Pixel p) y x = Some pix ∧ Role pix = Format) ∧
    ∀ i, 0 ≤ i < 15 →
      ∃ a b pix, a ∈ cells ∧ b ∈ cells ∧ a ≠ b ∧
        near_top_left a ∧ near_other_corners (4 * 3 + 17) b ∧
        get (Pixel p) a.1 a.2 = Some pix ∧
        get (Pixel p) b.1 b.2 = Some pix ∧
        Role pix = Format ∧ Offset pix = i ∧
        ∀ y x pix', get (Pixel p) y x = Some pix' →
          Role pix' = Format → Offset pix' = i → (y, x) = a ∨ (y, x) = b.
Proof. apply (NewPlan_format_twice 3 Q 6); lia. Defined.

(** ** The format codeword *)

Lemma format_check_all :
  forallb format_check (list_prod (seqZ 0 4) (seqZ 0 8)) = true.
Proof. vm_compute. reflexivity. Qed.

(** C4. For each level value 0..3 and mask id 0..7, the codeword fb that
    fplan computes is a 15-bit word whose bits 14-13 are the level XOR 1,
    bits 12-10 the mask id and low ten bits the remainder; the black flags
    it places show fb XOR 0x5412; undoing that XOR and running the
    remainder loop with generator 0x537 again gives zero, and fb is a
    GF(2) multiple of the generator. *)
Theorem format_round_trip (l m : Z) :
  0 ≤ l ≤ 3 → 0 ≤ m ≤ 7 →
  let fb := format_bits l m in
  0 ≤ fb < 2 ^ 15 ∧
  Z.shiftr fb 13 = Z.lxor l 1 ∧
  Z.land (Z.shiftr fb 10) 7 = m ∧
  Z.land fb 1023 = format_rem (format_info l m) ∧
  placed_black fb = Z.lxor fb 0x5412 ∧
  format_rem (Z.lxor (placed_black fb) 0x5412) = 0 ∧
  ∃ q, 0 ≤ q < 32 ∧ gf2_mul q 0x537 = fb.
Proof.
  intros Hl Hm fb.
  assert (Hc : format_check (l, m) = true).
  { pose proof format_check_all as Hall. rewrite forallb_forall in Hall.
    apply Hall. apply in_prod; apply list_elem_of_In, elem_of_seqZ; lia. }
  unfold format_check in Hc. cbn [fst snd] in Hc. fold fb in Hc.
  unfold format_invert, formatPoly in Hc.
  apply andb_true_iff in Hc as [Hc H7].
  apply andb_true_iff in Hc as [Hc H6]. apply Z.eqb_eq in H6.
  apply andb_true_iff in Hc as [Hc H5]. apply Z.eqb_eq in H5.
  apply andb_true_iff in Hc as [Hc H4]. apply Z.eqb_eq in H4.
  apply andb_true_iff in Hc as [Hc H3]. apply Z.eqb_eq in H3.
  apply andb_true_iff in Hc as [Hc H2]. apply Z.eqb_eq in H2.
  apply andb_true_iff in Hc as [H0 H1].
  apply Z.leb_le in H0. apply Z.ltb_lt in H1.
  split; [by split|]. repeat (split; [assumption|]).
  apply existsb_exists in H7 as (q & Hq & Hmul).
  apply list_elem_of_In, elem_of_seqZ in Hq. apply Z.eqb_eq in Hmul.
  exists q. split; [lia|assumption].
Qed.

Lemma format_round_trip_witness :
  let fb := format_bits 2 5 in
  0 ≤ fb < 2 ^ 15 ∧
  Z.shiftr fb 13 = Z.lxor 2 1 ∧
  Z.land (Z.shiftr fb 10) 7 = 5 ∧
  Z.land fb 1023 = format_rem (format_info 2 5) ∧
  placed_black fb = Z.lxor fb 0x5412 ∧
  format_rem (Z.lxor (placed_black fb) 0x5412) = 0 ∧
  ∃ q, 0 ≤ q < 32 ∧ gf2_mul q 0x537 = fb.
Proof. apply (format_round_trip 2 5); lia. Defined.

(** ** The drawn format pattern *)

Lemma level_one_check_all : forallb level_one_check (seqZ 1 40) = true.
Proof. vm_compute. reflexivity. Qed.

(** C5, as stated, fails at version 1.  With the constant M (which is 0,
    like L) the info bits are 0b01000, the remainder 0x3D6, the codeword
    0x23D6, and black XOR invert reads 0x23D6.  With the level value 1,
    for which the codeword is 0, black XOR invert reads 0, not 0x5412. *)
Lemma format_M_0_not_5412 :
  format_info M 0 = 0x2000 ∧
  format_rem (format_info M 0) = 0x3D6 ∧
  format_bits M 0 = 0x23D6 ∧
  pattern_of rendered (NewPlan 1 M 0) = Some 0x23D6 ∧
  pattern_of rendered (NewPlan 1 1 0) = Some 0 ∧
  ¬ draws_5412 1 M ∧ ¬ draws_5412 1 1.
Proof.
  assert (HM : pattern_of rendered (NewPlan 1 M 0) = Some 0x23D6)
    by (vm_compute; reflexivity).
  assert (H1 : pattern_of rendered (NewPlan 1 1 0) = Some 0)
    by (vm_compute; reflexivity).
  split; [vm_compute; reflexivity|].
  split; [vm_compute; reflexivity|].
  split; [vm_compute; reflexivity|].
  split; [exact HM|]. split; [exact H1|].
  split; intros (_ & _ & _ & Hp);
    [rewrite HM in Hp|rewrite H1 in Hp]; discriminate Hp.
Qed.

(** C5, amended.  For the level value 1 (the level whose two format bits
    are 00) and mask 0, at every version in 1..40: the info bits, the BCH
    remainder and the codeword are 0; the black flags of the format cells
    read in offset order give 0x5412, and so do their invert flags, hence
    black XOR invert gives 0. *)
Theorem format_level_1_mask_0 (v : Z) :
  1 ≤ v ≤ 40 →
  format_info 1 0 = 0 ∧
  format_rem (format_info 1 0) = 0 ∧
  format_bits 1 0 = 0 ∧
  ∃ p, NewPlan v 1 0 = Ok p ∧
       format_pattern is_black (Pixel p) = 0x5412 ∧
       format_pattern is_invert (Pixel p) = 0x5412 ∧
       format_pattern rendered (Pixel p) = 0.
Proof.
  intros Hv. repeat (split; [vm_compute; reflexivity|]).
  pose proof (all_versions _ level_one_check_all v Hv) as Hc.
  unfold level_one_check in Hc.
  destruct (NewPlan v 1 0) as [p| | |];
    [|discriminate Hc|discriminate Hc|discriminate Hc].
  apply andb_true_iff in Hc as [Hc Hr].
  apply andb_true_iff in Hc as [Hb Hi].
  apply Z.eqb_eq in Hb, Hi, Hr.
  exists p. split; [reflexivity|]. split; [exact Hb|]. split; [exact Hi|exact Hr].
Qed.

Lemma format_level_1_mask_0_witness :
  format_info 1 0 = 0 ∧
  format_rem (format_info 1 0) = 0 ∧
  format_bits 1 0 = 0 ∧
  ∃ p, NewPlan 4 1 0 = Ok p ∧
       format_pattern is_black (Pixel p) = 0x5412 ∧
       format_pattern is_invert (Pixel p) = 0x5412 ∧
       format_pattern rendered (Pixel p) = 0.
Proof. apply (format_level_1_mask_0 4). lia. Defined.

(** ** Masks *)

Lemma wrap_int_small (z : Z) : - 2 ^ 63 ≤ z < 2 ^ 63 → wrap_int z = z.
Proof. intros Hz. unfold wrap_int. rewrite Z.mod_small; lia. Qed.

Lemma rem_small (a b : Z) : 0 ≤ a → 0 < b → 0 ≤ Z.rem a b < b ∧ Z.rem a b = a mod b.
Proof.
  intros Ha Hb. rewrite Z.rem_mod_nonneg by lia.
  split; [apply Z.mod_pos_bound; lia|done].
Qed.

(** On indices below 2^31 the Go functions compute the formulas. *)
Lemma mfunc_formula (m : Z) (f : Z → Z → bool) (i j : Z) :
  index m ≫= (λ k, mfunc !! k) = Some f →
  0 ≤ i < 2 ^ 31 → 0 ≤ j < 2 ^ 31 → f i j = mask_formula m i j.
Proof.
  intros Hf Hi Hj.
  assert (Hij : 0 ≤ i * j < 2 ^ 62) by nia.
  assert (Hq2 : 0 ≤ Z.quot i 2 < 2 ^ 31 ∧ Z.quot i 2 = i / 2).
  { rewrite Z.quot_div_nonneg by lia. split; [|done].
    split; [apply Z.div_pos; lia|apply Z.div_lt_upper_bound; lia]. }
  assert (Hq3 : 0 ≤ Z.quot j 3 < 2 ^ 31 ∧ Z.quot j 3 = j / 3).
  { rewrite Z.quot_div_nonneg by lia. split; [|done].
    split; [apply Z.div_pos; lia|apply Z.div_lt_upper_bound; lia]. }
  destruct (rem_small (i * j) 2) as [Hr2 Hr2']; [lia..|].
  destruct (rem_small (i * j) 3) as [Hr3 Hr3']; [lia..|].
  destruct (rem_small (i + j) 2) as [Hs2 Hs2']; [lia..|].
  unfold index in Hf. destruct (decide (0 ≤ m)) as [Hm|]; [|done].
  simpl in Hf.
  assert (Hcases : m ∈ seqZ 0 8).
  { apply elem_of_seqZ. apply lookup_lt_Some in Hf. simpl in Hf. lia. }
  change (seqZ 0 8) with [0; 1; 2; 3; 4; 5; 6; 7] in Hcases.
  repeat (apply elem_of_cons in Hcases as [->|Hcases];
    [injection Hf as <-; unfold addi, muli, mask_formula;
     rewrite ?(wrap_int_small (i * j)) by lia;
     rewrite ?(wrap_int_small (i + j)) by lia;
     rewrite ?(wrap_int_small (Z.quot i 2 + Z.quot j 3)) by lia;
     rewrite ?wrap_int_small by lia;
     rewrite ?Z.rem_mod_nonneg by lia;
     rewrite ?(proj2 Hq2), ?(proj2 Hq3); reflexivity|]).
  by apply elem_of_nil in Hcases.
Qed.

Lemma lor_Invert (pix : Z) :
  is_black (Z.lor pix Invert) = is_black pix ∧
  is_invert (Z.lor pix Invert) = true ∧
  Role (Z.lor pix Invert) = Role pix ∧
  Offset (Z.lor pix Invert) = Offset pix.
Proof.
  unfold is_black, is_invert, Role, Offset, Black, Invert.
  rewrite !Z.land_lor_distr_l, !Z.shiftr_lor.
  change (Z.land 2 1) with 0. change (Z.land 2 2) with 2.
  change (Z.shiftr 2 2) with 0. change (Z.shiftr 2 5) with 0.
  rewrite !Z.lor_0_r. repeat split.
  destruct (Z.eqb_spec (Z.lor (Z.land pix 2) 2) 0) as [Heq|]; [|done].
  apply Z.lor_eq_0_iff in Heq. lia.
Qed.

Lemma get_imap (f : nat → nat → Z → Z) (g : list (list Z)) (y x : Z) :
  get (imap (λ r row, imap (λ c pix, f r c pix) row) g) y x
  = (r ← index y; c ← index x; f r c <$> cell g r c).
Proof.
  unfold get. destruct (index y) as [r|]; [|done].
  destruct (index x) as [c|]; [|done]. simpl. apply cell_imap.
Qed.

(** C7, as stated, fails.  On the one-row grid of two plain data cells,
    mask 1 ([i%2 == 0]) leaves the cell in row 0, column 1 without the
    invert flag although its row index is even: the code passes the
    column index as [i].  On a grid whose data cell in row 0, column 1
    already has the invert flag, mask 0 leaves it set although
    [(i+j)%2 == 0] is false there. *)
Lemma mplan_not_row_column :
  (∃ p', mplan 1 (mkPlan 1 0 0 0 0 0 [[20; 20]]) = Ok p' ∧
         get (Pixel p') 0 1 = Some 20 ∧ ¬ masked_by_row_column 1 p') ∧
  (∃ p', mplan 0 (mkPlan 1 0 0 0 0 0 [[20; 22]]) = Ok p' ∧
         get (Pixel p') 0 1 = Some 22 ∧ ¬ masked_by_row_column 0 p').
Proof.
  split; eexists; (split; [reflexivity|]); (split; [reflexivity|]);
    intros Hm; specialize (Hm 0 1 _ eq_refl (or_introl eq_refl));
    discriminate Hm.
Qed.

(** C7, amended.  For every Plan and every mask id m in 0..7, mplan
    returns a Plan in which every cell keeps its black flag, role and
    offset; a cell whose role is Data or Check has its invert flag set iff
    it was set before or the m-th function of the table holds with i the
    column index and j the row index; every other cell is unchanged.  On
    indices below 2^31 the m-th function is the m-th formula of the list
    (i+j)%2==0; i%2==0; j%3==0; (i+j)%3==0; (i/2+j/3)%2==0;
    i*j%2+i*j%3==0; (i*j%2+i*j%3)%2==0; (i*j%3+(i+j)%2)%2==0. *)
Theorem mplan_invert_column_row (m : Z) (p : Plan) :
  0 ≤ m ≤ 7 →
  ∃ f p', index m ≫= (λ k, mfunc !! k) = Some f ∧ mplan m p = Ok p' ∧
    (∀ i j, 0 ≤ i < 2 ^ 31 → 0 ≤ j < 2 ^ 31 → f i j = mask_formula m i j) ∧
    (∀ y x, get (Pixel p) y x = None → get (Pixel p') y x = None) ∧
    ∀ y x pix, get (Pixel p) y x = Some pix →
      ∃ pix', get (Pixel p') y x = Some pix' ∧
        is_black pix' = is_black pix ∧
        Role pix' = Role pix ∧ Offset pix' = Offset pix ∧
        (Role pix = Data ∨ Role pix = Check →
         is_invert pix' = is_invert pix || f x y) ∧
        (Role pix ≠ Data → Role pix ≠ Check → pix' = pix).
Proof.
  intros Hm. destruct (mplan_Ok m p Hm) as (f & Hf & Hmp).
  eexists f, _. split; [done|]. split; [exact Hmp|]. split.
  { intros i j. by apply mfunc_formula. }
  cbn [Pixel with_Pixel with_Mask]. split.
  - intros y x Hnone. rewrite get_imap. unfold get in Hnone.
    destruct (index y) as [r|]; [|done]. destruct (index x) as [c|]; [|done].
    simpl in *. by rewrite Hnone.
  - intros y x pix Hpix. exists (mask_pixel f (Z.to_nat y) (Z.to_nat x) pix).
    destruct (get_Some_cell _ _ _ _ Hpix) as (r & c & -> & -> & Hc).
    rewrite get_imap, !index_of_nat, !Nat2Z.id. simpl. rewrite Hc.
    split; [done|]. unfold mask_pixel.
    destruct (lor_Invert pix) as (Hb & Hi & Hr & Ho).
    destruct (Z.eqb_spec (Role pix) Data) as [Hd|Hd];
      [|destruct (Z.eqb_spec (Role pix) Check) as [Hk|Hk]]; simpl.
    + destruct (f (Z.of_nat c) (Z.of_nat r)).
      * rewrite Hi, orb_true_r. by repeat split.
      * rewrite orb_false_r. by repeat split.
    + destruct (f (Z.of_nat c) (Z.of_nat r)).
      * rewrite Hi, orb_true_r. by repeat split.
      * rewrite orb_false_r. by repeat split.
    + repeat split; try done. by intros [?|?].
Qed.

Lemma mplan_invert_column_row_witness :
  let p := mkPlan 1 0 0 0 0 0 [[20; 22]; [24; 0]] in
  ∃ f p', index 4 ≫= (λ k, mfunc !! k) = Some f ∧ mplan 4 p = Ok p' ∧
    (∀ i j, 0 ≤ i < 2 ^ 31 → 0 ≤ j < 2 ^ 31 → f i j = mask_formula 4 i j) ∧
    (∀ y x, get (Pixel p) y x = None → get (Pixel p') y x = None) ∧
    ∀ y x pix, get (Pixel p) y x = Some pix →
      ∃ pix', get (Pixel p') y x = Some pix' ∧
        is_black pix' = is_black pix ∧
        Role pix' = Role pix ∧ Offset pix' = Offset pix ∧
        (Role pix = Data ∨ Role pix = Check →
         is_invert pix' = is_invert pix || f x y) ∧
        (Role pix ≠ Data → Role pix ≠ Check → pix' = pix).
Proof.
  intros p. apply (mplan_invert_column_row 4 p). lia.
Defined.

(** ** Alignment boxes *)

Lemma align_check_all : forallb align_check (seqZ 1 40) = true.
Proof. vm_compute. reflexivity. Qed.

Lemma for_each_app {S A : Type} (f : A → S → result S) (l1 l2 : list A) (s : S) :
  for_each f (l1 ++ l2) s = s' ← for_each f l1 s; for_each f l2 s'.
Proof.
  revert s. induction l1 as [|a l1 IH]; intros s; [done|].
  simpl. destruct (f a s); simpl; auto.
Qed.

Lemma for_each_ext {S A : Type} (f g : A → S → result S) (l : list A) (s : S) :
  (∀ a s, f a s = g a s) → for_each f l s = for_each g l s.
Proof.
  intros Hfg. revert s. induction l as [|a l IH]; intros s; [done|].
  simpl. rewrite Hfg. destruct (g a s); simpl; auto.
Qed.

(** A terminating walk runs its body on the axis values, in order. *)
Lemma walk_for_each (siz : Z) (info : version) (fuel : nat) :
  ∀ (x : Z) (xs0 xs : list Z),
    walk fuel siz info (λ x xs, Ok (xs ++ [x])) x xs0 = Ok xs →
    ∃ ys, xs = xs0 ++ ys ∧
          ∀ (S : Type) (body : Z → S → result S) (s : S),
            walk fuel siz info body x s = for_each body ys s.
Proof.
  induction fuel as [|fuel IH]; intros x xs0 xs Hw; [done|].
  simpl in Hw. destruct (x + 5 <? siz) eqn:Hx.
  - simpl in Hw. apply IH in Hw as (ys & -> & Hbody).
    exists (x :: ys). split; [by rewrite <- app_assoc|].
    intros S body s. simpl. rewrite Hx.
    destruct (body x s); simpl; auto.
  - injection Hw as <-. exists []. split; [by rewrite app_nil_r|].
    intros S body s. simpl. by rewrite Hx.
Qed.

Lemma for_each_skip {S A : Type} (skip : A → bool) (act : A → S → result S)
    (l : list A) (s : S) :
  for_each (λ a s, if skip a then Ok s else act a s) l s
  = for_each act (List.filter (λ a, negb (skip a)) l) s.
Proof.
  revert s. induction l as [|a l IH]; intros s; [done|].
  simpl. destruct (skip a); simpl; [apply IH|].
  destruct (act a s); simpl; auto.
Qed.

Lemma for_each_map {S A B : Type} (h : A → B) (f : B → S → result S)
    (l : list A) (s : S) :
  for_each f (map h l) s = for_each (λ a s, f (h a) s) l s.
Proof.
  revert s. induction l as [|a l IH]; intros s; [done|].
  simpl. destruct (f (h a) s); simpl; auto.
Qed.

Lemma for_each_prod {S : Type} (skip : Z * Z → bool)
    (act : Z * Z → S → result S) (xs ys : list Z) (s : S) :
  for_each (λ x s,
     for_each (λ y s, if skip (x, y) then Ok s else act (x, y) s) ys s) xs s
  = for_each act (List.filter (λ xy, negb (skip xy)) (list_prod xs ys)) s.
Proof.
  revert s. induction xs as [|x xs IH]; intros s; [done|].
  simpl. rewrite filter_app, for_each_app.
  rewrite <- for_each_skip, for_each_map.
  destruct (for_each _ ys s); simpl; auto.
Qed.

(** The alignment stage of [vplan] stamps [alignBox] at [alignCalls]. *)
Lemma alignAll_calls (siz : Z) (info : version) (xs : list Z)
    (m : list (list Z)) :
  axis siz info = Ok xs →
  alignAll siz info m
  = for_each (λ xy m, alignBox m xy.1 xy.2) (alignCalls siz xs) m.
Proof.
  intros Hax. apply walk_for_each in Hax as (ys & -> & Hbody).
  unfold alignAll, alignCalls. rewrite Hbody. simpl.
  rewrite <- (for_each_prod (λ xy, skipAlign siz xy.1 xy.2)
                (λ xy m, alignBox m xy.1 xy.2)).
  apply for_each_ext. intros x m'. apply Hbody.
Qed.

Lemma covers_b_true (y x : Z) (xy : Z * Z) :
  covers_b y x xy = true ↔ covers xy y x.
Proof. unfold covers_b, covers. lia. Qed.

Lemma footprint_covers (xy : Z * Z) (y x : Z) :
  covers xy y x → In (y, x) (footprint xy).
Proof.
  intros [Hx Hy]. unfold footprint.
  apply in_prod; apply list_elem_of_In, elem_of_seqZ; lia.
Qed.

(** The stamped pattern: a black ring with a black centre. *)
Lemma alignPixel_pattern (dx dy : Z) :
  0 ≤ dx < 5 → 0 ≤ dy < 5 →
  Role (alignPixel dx dy) = Alignment ∧
  is_invert (alignPixel dx dy) = false ∧
  (is_black (alignPixel dx dy) = true ↔
   dx = 0 ∨ dx = 4 ∨ dy = 0 ∨ dy = 4 ∨ (dx = 2 ∧ dy = 2)).
Proof.
  intros Hdx Hdy. unfold alignPixel.
  destruct (_ || _) eqn:Hc; (split; [reflexivity|split; [reflexivity|]]).
  - split; [intros _; lia|reflexivity].
  - split; [discriminate|intros; lia].
Qed.

Lemma spec_places_clear (siz : Z) (info : version) (xy : Z * Z) (y x : Z) :
  In xy (spec_places siz info) → covers xy y x → finder_zone siz y x = false.
Proof.
  intros Hin Hcov. apply filter_In in Hin as [_ Hclear].
  apply negb_true_iff in Hclear.
  destruct (finder_zone siz y x) eqn:Hz; [|done].
  assert (Hex : overlaps_finder siz xy = true); [|congruence].
  apply existsb_exists. exists (y, x). split; [|done].
  by apply footprint_covers.
Qed.

Lemma box_stamped_true (g : list (list Z)) (xy : Z * Z) (y x : Z) :
  box_stamped g xy = true → covers xy y x →
  get g y x = Some (alignPixel (x - xy.1) (y - xy.2)).
Proof.
  intros Hbox Hcov. unfold box_stamped in Hbox.
  rewrite forallb_forall in Hbox.
  apply footprint_covers, Hbox in Hcov. by apply bool_decide_eq_true in Hcov.
Qed.

Lemma align_cell_ok_true (siz : Z) (places : list (Z * Z)) (r c : nat)
    (pix : Z) :
  align_cell_ok siz places r c pix = true →
  (Role pix = Alignment →
   ∃ xy, In xy places ∧ covers xy (Z.of_nat r) (Z.of_nat c)) ∧
  (finder_zone siz (Z.of_nat r) (Z.of_nat c) = true → Role pix = Position).
Proof.
  unfold align_cell_ok. intros Hok.
  apply andb_true_iff in Hok as [Hrole Hzone]. split.
  - intros HR. apply Z.eqb_eq in HR. rewrite HR in Hrole.
    apply existsb_exists in Hrole as (xy & Hin & Hcov).
    apply covers_b_true in Hcov. eauto.
  - intros Hz. rewrite Hz in Hzone. simpl in Hzone. by apply Z.eqb_eq.
Qed.

(** C8. For every version in 1..40 the alignment loops of vplan stamp
    alignBox exactly at the specification's places: the pairs of axis
    candidates (4, then apos, then steps of astride while not above
    size-9) whose 5x5 footprint misses the three finder zones.  In the
    grid vplan returns, a cell has role alignment iff one of these boxes
    covers it, and it then holds the box pattern (black ring and black
    centre, light elsewhere); no box covers a cell of a finder zone, every
    cell of a finder zone has role position, and version 1 has no box. *)
Theorem vplan_alignment (v : Z) :
  1 ≤ v ≤ 40 →
  ∃ info p, vtab !! Z.to_nat v = Some info ∧ vplan v = Ok p ∧
    let siz := 4 * v + 17 in
    let places := spec_places siz info in
    (∀ m, alignAll siz info m
          = for_each (λ xy m, alignBox m xy.1 xy.2) places m) ∧
    (∀ y x pix, get (Pixel p) y x = Some pix →
       (Role pix = Alignment ↔ ∃ xy, In xy places ∧ covers xy y x) ∧
       (∀ xy, In xy places → covers xy y x →
              pix = alignPixel (x - xy.1) (y - xy.2)) ∧
       (finder_zone siz y x = true → Role pix = Position)) ∧
    (∀ dx dy, 0 ≤ dx < 5 → 0 ≤ dy < 5 →
       Role (alignPixel dx dy) = Alignment ∧
       is_invert (alignPixel dx dy) = false ∧
       (is_black (alignPixel dx dy) = true ↔
        dx = 0 ∨ dx = 4 ∨ dy = 0 ∨ dy = 4 ∨ (dx = 2 ∧ dy = 2))) ∧
    (∀ xy y x, In xy places → covers xy y x → finder_zone siz y x = false) ∧
    (v = 1 → places = []).
Proof.
  intros Hv. pose proof (all_versions _ align_check_all v Hv) as Hc.
  unfold align_check in Hc.
  destruct (vtab !! Z.to_nat v) as [info|] eqn:Hinfo; [|discriminate Hc].
  destruct (vplan v) as [p| | |];
    [|discriminate Hc|discriminate Hc|discriminate Hc].
  replace (4 * v + 17) with (side v) by (unfold side; lia).
  cbv zeta in Hc. apply andb_true_iff in Hc as [Hc Hcells].
  apply andb_true_iff in Hc as [Hc Hboxes].
  apply andb_true_iff in Hc as [Hax Hcalls].
  apply bool_decide_eq_true in Hcalls. rewrite forallb_forall in Hboxes.
  destruct (axis (side v) info) as [xs| | |] eqn:Haxis;
    [|discriminate Hax|discriminate Hax|discriminate Hax].
  apply bool_decide_eq_true in Hax. subst xs.
  exists info, p. split; [reflexivity|]. split; [reflexivity|].
  cbv zeta. split; [|split; [|split; [|split]]].
  - intros m. rewrite <- Hcalls. by apply alignAll_calls.
  - intros y x pix Hpix.
    assert (Hbox : ∀ xy, In xy (spec_places (side v) info) → covers xy y x →
                         pix = alignPixel (x - xy.1) (y - xy.2)).
    { intros xy Hin Hcov.
      pose proof (box_stamped_true _ xy y x (Hboxes xy Hin) Hcov) as Hget.
      rewrite Hpix in Hget. by injection Hget. }
    destruct (get_Some_cell _ _ _ _ Hpix) as (r & c & -> & -> & Hcell).
    destruct (align_cell_ok_true _ _ r c pix
                (cells_all_lookup _ _ Hcells r c pix Hcell)) as [Hrole Hzone].
    split; [|split; [exact Hbox|exact Hzone]].
    split; [exact Hrole|].
    intros (xy & Hin & Hcov). rewrite (Hbox xy Hin Hcov).
    apply alignPixel_pattern; destruct Hcov; lia.
  - apply alignPixel_pattern.
  - intros xy y x. apply spec_places_clear.
  - intros ->. vm_compute in Hinfo. injection Hinfo as <-.
    vm_compute. reflexivity.
Qed.

Lemma vplan_alignment_witness :
  ∃ info p, vtab !! Z.to_nat 7 = Some info ∧ vplan 7 = Ok p ∧
    let siz := 4 * 7 + 17 in
    let places := spec_places siz info in
    (∀ m, alignAll siz info m
          = for_each (λ xy m, alignBox m xy.1 xy.2) places m) ∧
    (∀ y x pix, get (Pixel p) y x = Some pix →
       (Role pix = Alignment ↔ ∃ xy, In xy places ∧ covers xy y x) ∧
       (∀ xy, In xy places → covers xy y x →
              pix = alignPixel (x - xy.1) (y - xy.2)) ∧
       (finder_zone siz y x = true → Role pix = Position)) ∧
    (∀ dx dy, 0 ≤ dx < 5 → 0 ≤ dy < 5 →
       Role (alignPixel dx dy) = Alignment ∧
       is_invert (alignPixel dx dy) = false ∧
       (is_black (alignPixel dx dy) = true ↔
        dx = 0 ∨ dx = 4 ∨ dy = 0 ∨ dy = 4 ∨ (dx = 2 ∧ dy = 2))) ∧
    (∀ xy y x, In xy places → covers xy y x → finder_zone siz y x = false) ∧
    (7 = 1 → places = []).
Proof. apply (vplan_alignment 7). lia. Defined.

(** * Further properties of the code *)

(** ** Pixel fields *)

Lemma lor_low_bits (hi lo k : Z) :
  0 ≤ k → 0 ≤ lo < 2 ^ k → Z.lor (hi * 2 ^ k) lo = hi * 2 ^ k + lo.
Proof.
  intros Hk Hlo.
  rewrite <- Z.lxor_lor, <- Z.add_nocarry_lxor; try done;
    apply Z.bits_inj'; intros n Hn; rewrite Z.land_spec, Z.bits_0;
    destruct (Z.lt_ge_cases n k) as [Hlt|Hge];
    try (rewrite Z.mul_pow2_bits_low by lia; done);
    rewrite <- (Z.mod_small lo (2 ^ k)) by lia;
    rewrite Z.mod_pow2_bits_high by lia; apply andb_false_r.
Qed.

Lemma land_1 (p : Z) : Z.land p 1 = p mod 2.
Proof. exact (Z.land_ones p 1 ltac:(lia)). Qed.

Lemma testbit_2 (n : Z) : 0 ≤ n → Z.testbit 2 n = (1 =? n).
Proof. intros Hn. exact (Z.pow2_bits_eqb 1 n ltac:(lia)). Qed.

Lemma land_2 (p : Z) : Z.land p 2 = 2 * ((p / 2) mod 2).
Proof.
  pose proof (Z.testbit_spec' p 1 ltac:(lia)) as Hb.
  change (2 ^ 1) with 2 in Hb. rewrite <- Hb. clear Hb.
  apply Z.bits_inj'. intros n Hn. rewrite Z.land_spec, testbit_2 by done.
  destruct (Z.eqb_spec 1 n) as [<-|Hne].
  - rewrite andb_true_r. destruct (Z.testbit p 1); reflexivity.
  - rewrite andb_false_r. destruct (Z.testbit p 1); simpl Z.b2z.
    + change (2 * 1) with 2. rewrite testbit_2 by done.
      by destruct (Z.eqb_spec 1 n).
    + by rewrite Z.bits_0.
Qed.

(** X1. Packing a role 0..7, an offset below 2^27 and the two flags into
    one pixel loses nothing: Role, Offset and the flag tests give them
    back, and adding the offset pixel is the same as or-ing it. *)
Theorem pixel_fields_round_trip (r o : Z) (black invert : bool) :
  0 ≤ r ≤ 7 → 0 ≤ o < 2 ^ 27 →
  Role (pack r o black invert) = r ∧
  Offset (pack r o black invert) = o ∧
  is_black (pack r o black invert) = black ∧
  is_invert (pack r o black invert) = invert ∧
  uint32 (RolePixel r + OffsetPixel o) = Z.lor (RolePixel r) (OffsetPixel o).
Proof.
  intros Hr Ho.
  assert (HR : RolePixel r = r * 4).
  { unfold RolePixel, uint32. rewrite Z.shiftl_mul_pow2 by lia.
    rewrite Z.mod_small; lia. }
  assert (HO : OffsetPixel o = o * 32).
  { unfold OffsetPixel, uint32. rewrite Z.shiftl_mul_pow2 by lia.
    rewrite Z.mod_small; lia. }
  assert (Hro : Z.lor (RolePixel r) (OffsetPixel o) = o * 32 + r * 4).
  { rewrite HR, HO, Z.lor_comm. apply (lor_low_bits o (r * 4) 5); lia. }
  assert (Hp : pack r o black invert
               = (o * 8 + r) * 4 + ((if black then 1 else 0)
                                    + (if invert then 2 else 0))).
  { unfold pack. rewrite Hro, <- Z.lor_assoc.
    replace (Z.lor (if black then Black else 0) (if invert then Invert else 0))
      with ((if black then 1 else 0) + (if invert then 2 else 0))
      by (by destruct black, invert).
    replace (o * 32 + r * 4) with ((o * 8 + r) * 2 ^ 2) by lia.
    rewrite lor_low_bits; [lia|lia|destruct black, invert; lia]. }
  split; [|split; [|split; [|split]]].
  - unfold Role. rewrite Hp, Z.shiftr_div_pow2 by lia.
    change 7 with (Z.ones 3). rewrite Z.land_ones by lia.
    change (2 ^ 2) with 4. change (2 ^ 3) with 8.
    destruct black, invert; Z.div_mod_to_equations; lia.
  - unfold Offset. rewrite Hp, Z.shiftr_div_pow2 by lia.
    change (2 ^ 5) with 32.
    destruct black, invert; Z.div_mod_to_equations; lia.
  - unfold is_black, Black. rewrite Hp, land_1.
    destruct black, invert;
      (match goal with
       | |- negb (?e =? 0) = _ => destruct (Z.eqb_spec e 0) as [He|He]
       end; simpl; try done; exfalso; revert He;
       Z.div_mod_to_equations; lia).
  - unfold is_invert, Invert. rewrite Hp, land_2.
    destruct black, invert;
      (match goal with
       | |- negb (?e =? 0) = _ => destruct (Z.eqb_spec e 0) as [He|He]
       end; simpl; try done; exfalso; revert He;
       Z.div_mod_to_equations; lia).
  - rewrite Hro, HR, HO. unfold uint32. rewrite Z.mod_small; lia.
Qed.

Lemma pixel_fields_round_trip_witness :
  Role (pack 4 14 true false) = 4 ∧
  Offset (pack 4 14 true false) = 14 ∧
  is_black (pack 4 14 true false) = true ∧
  is_invert (pack 4 14 true false) = false ∧
  uint32 (RolePixel 4 + OffsetPixel 14) = Z.lor (RolePixel 4) (OffsetPixel 14).
Proof. apply (pixel_fields_round_trip 4 14 true false); lia. Defined.

(** X2. The fields wrap: an offset is kept modulo 2^27 and never touches
    role or flags; a role is kept modulo 8, and a role above 7 spills into
    the offset field. *)
Theorem pixel_fields_wrap (r o : Z) :
  Offset (OffsetPixel o) = o mod 2 ^ 27 ∧
  Role (OffsetPixel o) = 0 ∧
  is_black (OffsetPixel o) = false ∧ is_invert (OffsetPixel o) = false ∧
  Role (RolePixel r) = r mod 8 ∧
  Offset (RolePixel r) = (r mod 2 ^ 30) / 8.
Proof.
  unfold Offset, Role, is_black, is_invert, Black, Invert, OffsetPixel,
    RolePixel, uint32.
  rewrite land_1, land_2.
  rewrite !Z.shiftl_mul_pow2, !Z.shiftr_div_pow2 by lia.
  change 7 with (Z.ones 3). rewrite !Z.land_ones by lia.
  change (2 ^ 32) with 4294967296. change (2 ^ 27) with 134217728.
  change (2 ^ 30) with 1073741824.
  change (2 ^ 5) with 32. change (2 ^ 2) with 4. change (2 ^ 3) with 8.
  assert (((o * 32) mod 4294967296) mod 2 = 0) as ->
    by (Z.div_mod_to_equations; lia).
  assert ((((o * 32) mod 4294967296) / 2) mod 2 = 0) as ->
    by (Z.div_mod_to_equations; lia).
  repeat split; try reflexivity; Z.div_mod_to_equations; lia.
Qed.

(** ** Stores in general *)

Lemma set_never (g : list (list Z)) (y x p : Z) :
  (∀ e, set g y x p ≠ Err e) ∧ set g y x p ≠ Diverge.
Proof. unfold set. split; [intros e|]; repeat case_match; done. Qed.

Lemma set_Ok_in_grid (n : nat) (g g' : list (list Z)) (y x p : Z) :
  square n g → set g y x p = Ok g' → in_grid n (y, x, p).
Proof.
  intros Hsq. unfold set, in_grid. simpl.
  destruct (index y) as [r|] eqn:Hy; [|done].
  destruct (index x) as [c|] eqn:Hx; [|done].
  destruct (g !! r) as [row|] eqn:Hrow; [|done].
  destruct (decide (c < length row)%nat) as [Hlt|]; [|done]. intros _.
  apply index_Some in Hy, Hx. pose proof (lookup_lt_Some _ _ _ Hrow) as Hr.
  rewrite (square_row n g r row Hsq Hrow) in Hlt. destruct Hsq as [Hlen _].
  lia.
Qed.

Lemma store_never (ws : list write) (g : list (list Z)) :
  (∀ e, store ws g ≠ Err e) ∧ store ws g ≠ Diverge.
Proof.
  revert g. induction ws as [|[[y x] p] ws IH]; intros g; [done|].
  unfold store in *. simpl.
  destruct (set g y x p) as [g1| | |] eqn:Hset; simpl.
  - apply IH.
  - by destruct (proj1 (set_never g y x p) e).
  - done.
  - by destruct (proj2 (set_never g y x p)).
Qed.

Lemma store_shape (ws : list write) (g g' : list (list Z)) :
  store ws g = Ok g' → map length g' = map length g.
Proof.
  revert g. induction ws as [|[[y x] p] ws IH]; intros g.
  - by intros [= <-].
  - unfold store in *. simpl.
    destruct (set g y x p) as [g1| | |] eqn:Hset; simpl; try done.
    intros Hst. rewrite (IH _ Hst). by apply set_cells in Hset as [? _].
Qed.

Lemma store_len (ws : list write) (g g' : list (list Z)) :
  store ws g = Ok g' → len g' = len g.
Proof.
  intros Hst. apply store_shape in Hst. unfold len.
  by rewrite <- (length_map length g'), Hst, length_map.
Qed.

Lemma store_Ok_in_grid (n : nat) (ws : list write) (g g' : list (list Z)) :
  square n g → store ws g = Ok g' → Forall (in_grid n) ws.
Proof.
  revert g. induction ws as [|[[y x] p] ws IH]; intros g Hsq Hst; [done|].
  unfold store in *. simpl in Hst.
  destruct (set g y x p) as [g1| | |] eqn:Hset; simpl in Hst; try done.
  constructor.
  - by eapply set_Ok_in_grid.
  - eapply IH; [|done]. eapply square_shape; [|done].
    by apply set_cells in Hset as [? _].
Qed.

(** A store outside the grid makes the whole sequence panic. *)
Lemma store_Panic (n : nat) (ws : list write) (g : list (list Z)) (w : write) :
  square n g → w ∈ ws → ¬ in_grid n w → store ws g = Panic.
Proof.
  intros Hsq Hin Hout.
  destruct (store ws g) as [g'|e| |] eqn:Hst; [| |done|].
  - pose proof (store_Ok_in_grid n ws g g' Hsq Hst) as Hall.
    rewrite Forall_forall in Hall. destruct Hout. apply Hall.
    by apply list_elem_of_In.
  - by destruct (proj1 (store_never ws g) e).
  - by destruct (proj2 (store_never ws g)).
Qed.

(** The cells after a sequence of stores, read with Go indices. *)
Lemma store_get (n : nat) (ws : list write) (g : list (list Z)) :
  square n g → Forall (in_grid n) ws →
  ∃ g', store ws g = Ok g' ∧ square n g' ∧
        ∀ y x, get g' y x =
               match written ws y x with
               | Some p => Some p
               | None => get g y x
               end.
Proof.
  intros Hsq Hall.
  destruct (store_cells n ws g Hsq Hall) as (g' & Hst & Hsq' & Hcells).
  exists g'. split; [done|]. split; [done|].
  intros y x. destruct (written ws y x) as [q|] eqn:Hw.
  - pose proof Hw as Hin. apply written_Some, list_elem_of_In in Hin.
    apply (proj1 (Forall_forall _ _) Hall) in Hin as [Hy Hx].
    simpl in Hy, Hx.
    rewrite <- (Z2Nat.id y), <- (Z2Nat.id x) in Hw |- * by lia.
    by rewrite get_cell, Hcells, Hw.
  - unfold get. destruct (index y) as [r|] eqn:Hy; [|done].
    destruct (index x) as [c|] eqn:Hx; [|done]. simpl.
    apply index_Some in Hy, Hx. subst y x. by rewrite Hcells, Hw.
Qed.

Lemma for_each_store_flat {A : Type} (W : A → list write) (l : list A)
    (g : list (list Z)) :
  for_each (λ a g, store (W a) g) l g = store (flat_map W l) g.
Proof.
  revert g. induction l as [|a l IH]; intros g; [done|].
  simpl. rewrite store_app. destruct (store (W a) g); simpl; auto.
Qed.

(** A loop whose body, on a grid of [n] rows, is a sequence of stores. *)
Lemma for_each_store_len {A : Type} (n : Z) (body : A → list (list Z) →
    result (list (list Z))) (W : A → list write) (l : list A)
    (g : list (list Z)) :
  (∀ a g, len g = n → body a g = store (W a) g) →
  len g = n → for_each body l g = store (flat_map W l) g.
Proof.
  intros Hbody. revert g. induction l as [|a l IH]; intros g Hlen; [done|].
  simpl. rewrite store_app, Hbody by done.
  destruct (store (W a) g) as [g1| | |] eqn:Hst; simpl; try done.
  apply IH. by rewrite (store_len _ _ _ Hst).
Qed.

Lemma box_loop_store (pixf : Z → Z → Z) (ds : list Z) (x y : Z)
    (m : list (list Z)) :
  for_each (λ dy m,
     for_each (λ dx m, set m (y + dy) (x + dx) (pixf dx dy)) ds m) ds m
  = store (flat_map (λ dy, map (λ dx, (y + dy, x + dx, pixf dx dy)) ds) ds) m.
Proof.
  rewrite <- for_each_store_flat. apply for_each_ext. intros dy g.
  unfold store. by rewrite for_each_map.
Qed.

(** ** alignBox *)

Lemma alignBox_store (m : list (list Z)) (x y : Z) :
  alignBox m x y = store (align_writes x y) m.
Proof. apply box_loop_store. Qed.

Lemma elem_of_align_writes (x y : Z) (w : write) :
  w ∈ align_writes x y ↔
  ∃ dx dy, 0 ≤ dx < 5 ∧ 0 ≤ dy < 5 ∧ w = (y + dy, x + dx, alignPixel dx dy).
Proof.
  unfold align_writes. rewrite list_elem_of_In, in_flat_map. split.
  - intros (dy & Hdy & Hw). apply in_map_iff in Hw as (dx & <- & Hdx).
    apply list_elem_of_In, elem_of_seqZ in Hdy, Hdx.
    exists dx, dy. repeat split; lia.
  - intros (dx & dy & Hdx & Hdy & ->). exists dy. split.
    + apply list_elem_of_In, elem_of_seqZ. lia.
    + apply in_map_iff. exists dx. split; [done|].
      apply list_elem_of_In, elem_of_seqZ. lia.
Qed.

(** X3. On a square grid that contains the 5x5 footprint, alignBox
    succeeds, keeps the grid square, stores the alignment pattern in the 25
    cells of the footprint and leaves every other cell as it was. *)
Theorem alignBox_stamps (n : nat) (m : list (list Z)) (x y : Z) :
  square n m → 0 ≤ x → x + 5 ≤ Z.of_nat n → 0 ≤ y → y + 5 ≤ Z.of_nat n →
  ∃ m', alignBox m x y = Ok m' ∧ square n m' ∧
        ∀ r c, get m' r c =
               if covers_b r c (x, y) then Some (alignPixel (c - x) (r - y))
               else get m r c.
Proof.
  intros Hsq Hx0 Hx1 Hy0 Hy1. rewrite alignBox_store.
  destruct (store_get n (align_writes x y) m Hsq) as (m' & Hst & Hsq' & Hget).
  { apply Forall_forall. intros w Hw.
    apply list_elem_of_In, elem_of_align_writes in Hw
      as (dx & dy & Hdx & Hdy & ->).
    unfold in_grid. simpl. lia. }
  exists m'. split; [done|]. split; [done|].
  intros r c. rewrite Hget.
  destruct (covers_b r c (x, y)) eqn:Hcov.
  - apply covers_b_true in Hcov as [Hc Hr]. simpl in Hc, Hr.
    destruct (written (align_writes x y) r c) as [q|] eqn:Hw.
    + apply written_Some, elem_of_align_writes in Hw
        as (dx & dy & _ & _ & [= -> -> ->]).
      do 2 f_equal; lia.
    + apply written_None in Hw. destruct Hw.
      apply list_elem_of_fmap.
      exists (r, c, alignPixel (c - x) (r - y)). split; [done|].
      apply elem_of_align_writes. exists (c - x), (r - y).
      repeat split; try lia. do 2 f_equal; lia.
  - destruct (written (align_writes x y) r c) as [q|] eqn:Hw; [|done].
    apply written_Some, elem_of_align_writes in Hw
      as (dx & dy & Hdx & Hdy & [= -> -> ->]).
    assert (covers_b (y + dy) (x + dx) (x, y) = true); [|congruence].
    apply covers_b_true. unfold covers. simpl. lia.
Qed.

Lemma alignBox_stamps_witness :
  ∃ m', alignBox (replicate 6 (replicate 6 0)) 1 0 = Ok m' ∧
        square 6 m' ∧
        ∀ r c, get m' r c =
               if covers_b r c (1, 0) then Some (alignPixel (c - 1) (r - 0))
               else get (replicate 6 (replicate 6 0)) r c.
Proof.
  apply (alignBox_stamps 6 (replicate 6 (replicate 6 0)) 1 0);
    [apply (bool_decide_unpack _); by vm_compute|lia..].
Defined.

(** X4. On a square grid that does not contain the whole footprint,
    alignBox panics: some store falls outside the grid. *)
Theorem alignBox_out_of_grid (n : nat) (m : list (list Z)) (x y : Z) :
  square n m →
  x < 0 ∨ y < 0 ∨ Z.of_nat n < x + 5 ∨ Z.of_nat n < y + 5 →
  alignBox m x y = Panic.
Proof.
  intros Hsq Hout. rewrite alignBox_store.
  assert (Hlo : (y + 0, x + 0, alignPixel 0 0) ∈ align_writes x y).
  { apply elem_of_align_writes. exists 0, 0. repeat split; lia. }
  assert (Hhi : (y + 4, x + 4, alignPixel 4 4) ∈ align_writes x y).
  { apply elem_of_align_writes. exists 4, 4. repeat split; lia. }
  destruct (decide (x < 0 ∨ y < 0)) as [Hneg|Hpos].
  - apply (store_Panic n _ m _ Hsq Hlo). unfold in_grid. simpl. lia.
  - apply (store_Panic n _ m _ Hsq Hhi). unfold in_grid. simpl. lia.
Qed.

Lemma alignBox_out_of_grid_witness :
  alignBox (replicate 6 (replicate 6 0)) 2 0 = Panic.
Proof.
  apply (alignBox_out_of_grid 6 (replicate 6 (replicate 6 0)) 2 0);
    [apply (bool_decide_unpack _); by vm_compute|lia].
Defined.

(** ** posBox *)

Lemma set_len (g g' : list (list Z)) (y x p : Z) :
  set g y x p = Ok g' → len g' = len g.
Proof.
  intros Hs. apply set_cells in Hs as [Hs _]. unfold len.
  by rewrite <- (length_map length g'), Hs, length_map.
Qed.

(** One step of a border loop of [posBox]: a bounds test on the loop
    index, then up to two guarded stores. *)
Lemma border_step_store (n : Z) (inside b1 b2 : bool) (w1 w2 : write)
    (g : list (list Z)) :
  (if inside then
     g ← (if b1 then set g w1.1.1 w1.1.2 w1.2 else Ok g);
     (if b2 then set g w2.1.1 w2.1.2 w2.2 else Ok g)
   else Ok g)
  = store (if inside then (if b1 then [w1] else []) ++ (if b2 then [w2] else [])
           else []) g.
Proof.
  unfold store. destruct inside, b1, b2; simpl; try done;
    (destruct (set g _ _ _) as [g1| | |]; simpl; [|done..]);
    try done; by destruct (set g1 _ _ _).
Qed.

Lemma pos_border_v_store (n x y : Z) (g : list (list Z)) :
  len g = n →
  for_each (λ dy m,
     if (0 <=? y + dy) && (y + dy <? len m) then
       m ← (if 0 <? x then set m (y + dy) (x - 1) (RolePixel Position)
             else Ok m);
       (if x + 7 <? len m then set m (y + dy) (x + 7) (RolePixel Position)
        else Ok m)
     else Ok m) (seqZ (-1) 9) g
  = store (flat_map (λ dy,
       if (0 <=? y + dy) && (y + dy <? n) then
         (if 0 <? x then [(y + dy, x - 1, RolePixel Position)] else [])
         ++ (if x + 7 <? n then [(y + dy, x + 7, RolePixel Position)] else [])
       else []) (seqZ (-1) 9)) g.
Proof.
  apply for_each_store_len. clear g. intros dy g Hg. rewrite Hg.
  rewrite <- (border_step_store n _ (0 <? x) (x + 7 <? n)
                (y + dy, x - 1, RolePixel Position)
                (y + dy, x + 7, RolePixel Position)).
  destruct ((0 <=? y + dy) && (y + dy <? n)); [|done].
  destruct (0 <? x); simpl; [|by rewrite Hg].
  destruct (set g _ _ _) as [g1| | |] eqn:Hs; simpl; try done.
  by rewrite (set_len _ _ _ _ _ Hs), Hg.
Qed.

Lemma pos_border_h_store (n x y : Z) (g : list (list Z)) :
  len g = n →
  for_each (λ dx m,
     if (0 <=? x + dx) && (x + dx <? len m) then
       m ← (if 0 <? y then set m (y - 1) (x + dx) (RolePixel Position)
             else Ok m);
       (if y + 7 <? len m then set m (y + 7) (x + dx) (RolePixel Position)
        else Ok m)
     else Ok m) (seqZ (-1) 9) g
  = store (flat_map (λ dx,
       if (0 <=? x + dx) && (x + dx <? n) then
         (if 0 <? y then [(y - 1, x + dx, RolePixel Position)] else [])
         ++ (if y + 7 <? n then [(y + 7, x + dx, RolePixel Position)] else [])
       else []) (seqZ (-1) 9)) g.
Proof.
  apply for_each_store_len. clear g. intros dx g Hg. rewrite Hg.
  rewrite <- (border_step_store n _ (0 <? y) (y + 7 <? n)
                (y - 1, x + dx, RolePixel Position)
                (y + 7, x + dx, RolePixel Position)).
  destruct ((0 <=? x + dx) && (x + dx <? n)); [|done].
  destruct (0 <? y); simpl; [|by rewrite Hg].
  destruct (set g _ _ _) as [g1| | |] eqn:Hs; simpl; try done.
  by rewrite (set_len _ _ _ _ _ Hs), Hg.
Qed.

Lemma posBox_store (m : list (list Z)) (x y : Z) :
  posBox m x y = store (pos_writes (len m) x y) m.
Proof.
  unfold posBox, pos_writes.
  rewrite store_app, (box_loop_store posPixel (seqZ 0 7) x y m).
  destruct (store _ m) as [m1| | |] eqn:H1; [|reflexivity..].
  pose proof (store_len _ _ _ H1) as Hl1.
  change (Ok m1 ≫= ?f) with (f m1). cbv beta.
  rewrite store_app, (pos_border_v_store (len m) x y m1 Hl1).
  destruct (store _ m1) as [m2| | |] eqn:H2; [|reflexivity..].
  pose proof (store_len _ _ _ H2) as Hl2. rewrite Hl1 in Hl2.
  change (Ok m2 ≫= ?f) with (f m2). cbv beta.
  apply (pos_border_h_store (len m) x y m2 Hl2).
Qed.

Lemma elem_of_pos_writes (n x y : Z) (w : write) :
  w ∈ pos_writes n x y ↔
  (∃ dx dy, 0 ≤ dx < 7 ∧ 0 ≤ dy < 7 ∧ w = (y + dy, x + dx, posPixel dx dy))
  ∨ (∃ dy, -1 ≤ dy < 8 ∧ 0 ≤ y + dy < n ∧
           ((0 < x ∧ w = (y + dy, x - 1, RolePixel Position))
            ∨ (x + 7 < n ∧ w = (y + dy, x + 7, RolePixel Position))))
  ∨ (∃ dx, -1 ≤ dx < 8 ∧ 0 ≤ x + dx < n ∧
           ((0 < y ∧ w = (y - 1, x + dx, RolePixel Position))
            ∨ (y + 7 < n ∧ w = (y + 7, x + dx, RolePixel Position)))).
Proof.
  unfold pos_writes. rewrite !elem_of_app, !list_elem_of_In, !in_flat_map.
  split.
  - intros [(dy & Hdy & Hw)|[(dy & Hdy & Hw)|(dx & Hdx & Hw)]].
    + left. apply in_map_iff in Hw as (dx & <- & Hdx).
      apply list_elem_of_In, elem_of_seqZ in Hdy, Hdx.
      exists dx, dy. repeat split; lia.
    + right; left. apply list_elem_of_In, elem_of_seqZ in Hdy.
      exists dy. split; [lia|].
      destruct (Z.leb_spec 0 (y + dy)); [|done].
      destruct (Z.ltb_spec (y + dy) n); [|done]. split; [lia|].
      simpl in Hw. apply in_app_or in Hw as [Hw|Hw].
      * destruct (Z.ltb_spec 0 x); [|done]. destruct Hw as [<-|[]]. auto.
      * destruct (Z.ltb_spec (x + 7) n); [|done]. destruct Hw as [<-|[]]. auto.
    + right; right. apply list_elem_of_In, elem_of_seqZ in Hdx.
      exists dx. split; [lia|].
      destruct (Z.leb_spec 0 (x + dx)); [|done].
      destruct (Z.ltb_spec (x + dx) n); [|done]. split; [lia|].
      simpl in Hw. apply in_app_or in Hw as [Hw|Hw].
      * destruct (Z.ltb_spec 0 y); [|done]. destruct Hw as [<-|[]]. auto.
      * destruct (Z.ltb_spec (y + 7) n); [|done]. destruct Hw as [<-|[]]. auto.
  - intros [(dx & dy & Hdx & Hdy & ->)|[(dy & Hdy & Hin & Hw)|(dx & Hdx & Hin & Hw)]].
    + left. exists dy. split; [apply list_elem_of_In, elem_of_seqZ; lia|].
      apply in_map_iff. exists dx. split; [done|].
      apply list_elem_of_In, elem_of_seqZ. lia.
    + right; left. exists dy.
      split; [apply list_elem_of_In, elem_of_seqZ; lia|].
      destruct (Z.leb_spec 0 (y + dy)); [|lia].
      destruct (Z.ltb_spec (y + dy) n); [|lia]. simpl. apply in_or_app.
      destruct Hw as [[Hx ->]|[Hx ->]].
      * left. destruct (Z.ltb_spec 0 x); [by left|lia].
      * right. destruct (Z.ltb_spec (x + 7) n); [by left|lia].
    + right; right. exists dx.
      split; [apply list_elem_of_In, elem_of_seqZ; lia|].
      destruct (Z.leb_spec 0 (x + dx)); [|lia].
      destruct (Z.ltb_spec (x + dx) n); [|lia]. simpl. apply in_or_app.
      destruct Hw as [[Hy ->]|[Hy ->]].
      * left. destruct (Z.ltb_spec 0 y); [by left|lia].
      * right. destruct (Z.ltb_spec (y + 7) n); [by left|lia].
Qed.

Lemma get_Some_in_grid (n : nat) (g : list (list Z)) (r c pix : Z) :
  square n g → get g r c = Some pix →
  0 ≤ r < Z.of_nat n ∧ 0 ≤ c < Z.of_nat n.
Proof.
  intros Hsq Hget. apply get_Some_cell in Hget as (r' & c' & -> & -> & Hc).
  apply (cell_Some_lt n) in Hc as [? ?]; [lia|done].
Qed.

(** The finder pattern: a black ring, a light ring, a black 3x3 centre. *)
Lemma posPixel_pattern (dx dy : Z) :
  Role (posPixel dx dy) = Position ∧
  is_invert (posPixel dx dy) = false ∧
  (is_black (posPixel dx dy) = true ↔
   dx = 0 ∨ dx = 6 ∨ dy = 0 ∨ dy = 6 ∨ (2 ≤ dx ≤ 4 ∧ 2 ≤ dy ≤ 4)).
Proof.
  unfold posPixel.
  destruct (_ || _) eqn:Hc; (split; [reflexivity|split; [reflexivity|]]).
  - split; [intros _; lia|reflexivity].
  - split; [discriminate|intros; lia].
Qed.

(** X5. On a square grid that contains the 7x7 box, posBox succeeds and
    keeps the grid square.  Every cell of the box then holds the finder
    pattern (black outer ring, light ring, black 3x3 centre); every other
    cell of the grid within one step of the box holds a light position
    pixel; every remaining cell is unchanged. *)
Theorem posBox_stamps (n : nat) (m : list (list Z)) (x y : Z) :
  square n m → 0 ≤ x → x + 7 ≤ Z.of_nat n → 0 ≤ y → y + 7 ≤ Z.of_nat n →
  ∃ m', posBox m x y = Ok m' ∧ square n m' ∧
    (∀ r c pix, get m r c = Some pix →
       get m' r c =
       Some (if in_box x y r c then posPixel (c - x) (r - y)
             else if in_ring x y r c then RolePixel Position
             else pix)) ∧
    ∀ dx dy,
      Role (posPixel dx dy) = Position ∧
      is_invert (posPixel dx dy) = false ∧
      (is_black (posPixel dx dy) = true ↔
       dx = 0 ∨ dx = 6 ∨ dy = 0 ∨ dy = 6 ∨ (2 ≤ dx ≤ 4 ∧ 2 ≤ dy ≤ 4)).
Proof.
  intros Hsq Hx0 Hx1 Hy0 Hy1. rewrite posBox_store.
  assert (Hlen : len m = Z.of_nat n) by (destruct Hsq as [<- _]; done).
  rewrite Hlen. set (ws := pos_writes (Z.of_nat n) x y).
  destruct (store_get n ws m Hsq) as (m' & Hst & Hsq' & Hget).
  { apply Forall_forall. intros w Hw.
    apply list_elem_of_In, elem_of_pos_writes in Hw
      as [(dx & dy & Hdx & Hdy & ->)|[(dy & Hdy & Hin & [[? ->]|[? ->]])
                                     |(dx & Hdx & Hin & [[? ->]|[? ->]])]];
      unfold in_grid; simpl; lia. }
  exists m'. split; [done|]. split; [done|]. split; [|apply posPixel_pattern].
  intros r c pix Hpix. rewrite Hget.
  destruct (get_Some_in_grid n m r c pix Hsq Hpix) as [Hr Hc].
  unfold in_box, in_ring.
  destruct (written ws r c) as [q|] eqn:Hw.
  - f_equal. apply written_Some, elem_of_pos_writes in Hw
      as [(dx & dy & Hdx & Hdy & [= -> -> ->])
         |[(dy & Hdy & Hin & [[? [= -> -> ->]]|[? [= -> -> ->]]])
          |(dx & Hdx & Hin & [[? [= -> -> ->]]|[? [= -> -> ->]]])]].
    + replace ((x <=? x + dx) && (x + dx <? x + 7) && (y <=? y + dy)
               && (y + dy <? y + 7)) with true by lia.
      f_equal; lia.
    + replace ((x <=? x - 1) && _ && _ && _) with false by lia.
      replace ((x - 1 <=? x - 1) && _ && _ && _) with true by lia. done.
    + replace ((x <=? x + 7) && _ && _ && _) with false by lia.
      replace ((x - 1 <=? x + 7) && _ && _ && _) with true by lia. done.
    + replace (_ && (y - 1 <? y + 7)) with false by lia.
      replace (_ && (y - 1 <=? y + 7)) with true by lia. done.
    + replace (_ && (y + 7 <? y + 7)) with false by lia.
      replace (_ && (y + 7 <=? y + 7)) with true by lia. done.
  - rewrite Hpix. f_equal. apply written_None in Hw.
    destruct ((x - 1 <=? c) && (c <=? x + 7) && (y - 1 <=? r) && (r <=? y + 7))
      eqn:Hring.
    + destruct Hw. apply list_elem_of_fmap.
      destruct ((x <=? c) && (c <? x + 7) && (y <=? r) && (r <? y + 7))
        eqn:Hbox.
      * exists (r, c, posPixel (c - x) (r - y)). split; [done|].
        apply elem_of_pos_writes. left. exists (c - x), (r - y).
        repeat split; try lia. do 2 f_equal; lia.
      * exists (r, c, RolePixel Position). split; [done|].
        apply elem_of_pos_writes. right.
        destruct (decide (c = x - 1 ∨ c = x + 7)) as [Hcol|Hcol].
        -- left. exists (r - y). split; [lia|]. split; [lia|].
           destruct Hcol as [-> | ->]; [left|right];
             (split; [lia|do 2 f_equal; lia]).
        -- right. exists (c - x). split; [lia|]. split; [lia|].
           assert (r = y - 1 ∨ r = y + 7) as [-> | ->] by lia; [left|right];
             (split; [lia|do 2 f_equal; lia]).
    + replace ((x <=? c) && (c <? x + 7) && (y <=? r) && (r <? y + 7))
        with false by lia.
      done.
Qed.

Lemma posBox_stamps_witness :
  let m := replicate 9 (replicate 9 0) in
  ∃ m', posBox m 2 0 = Ok m' ∧ square 9 m' ∧
    (∀ r c pix, get m r c = Some pix →
       get m' r c =
       Some (if in_box 2 0 r c then posPixel (c - 2) (r - 0)
             else if in_ring 2 0 r c then RolePixel Position
             else pix)) ∧
    ∀ dx dy,
      Role (posPixel dx dy) = Position ∧
      is_invert (posPixel dx dy) = false ∧
      (is_black (posPixel dx dy) = true ↔
       dx = 0 ∨ dx = 6 ∨ dy = 0 ∨ dy = 6 ∨ (2 ≤ dx ≤ 4 ∧ 2 ≤ dy ≤ 4)).
Proof.
  intros m. apply (posBox_stamps 9 m 2 0);
    [apply (bool_decide_unpack _); by vm_compute|lia..].
Defined.

(** X6. On a square grid that does not contain the whole 7x7 box, posBox
    panics. *)
Theorem posBox_out_of_grid (n : nat) (m : list (list Z)) (x y : Z) :
  square n m →
  x < 0 ∨ y < 0 ∨ Z.of_nat n < x + 7 ∨ Z.of_nat n < y + 7 →
  posBox m x y = Panic.
Proof.
  intros Hsq Hout. rewrite posBox_store.
  assert (Hlen : len m = Z.of_nat n) by (destruct Hsq as [<- _]; done).
  rewrite Hlen.
  assert (Hlo : (y + 0, x + 0, posPixel 0 0) ∈ pos_writes (Z.of_nat n) x y).
  { apply elem_of_pos_writes. left. exists 0, 0. repeat split; lia. }
  assert (Hhi : (y + 6, x + 6, posPixel 6 6) ∈ pos_writes (Z.of_nat n) x y).
  { apply elem_of_pos_writes. left. exists 6, 6. repeat split; lia. }
  destruct (decide (x < 0 ∨ y < 0)) as [Hneg|Hpos].
  - apply (store_Panic n _ m _ Hsq Hlo). unfold in_grid. simpl. lia.
  - apply (store_Panic n _ m _ Hsq Hhi). unfold in_grid. simpl. lia.
Qed.

Lemma posBox_out_of_grid_witness :
  posBox (replicate 9 (replicate 9 0)) 3 0 = Panic.
Proof.
  apply (posBox_out_of_grid 9 (replicate 9 (replicate 9 0)) 3 0);
    [apply (bool_decide_unpack _); by vm_compute|lia].
Defined.

(** ** fplan: bounds and rewriting *)

Lemma format_writes_in_grid_9 (fb : Z) (n : nat) :
  (9 ≤ n)%nat → Forall (in_grid n) (format_writes fb (Z.of_nat n)).
Proof.
  intros Hn. apply Forall_forall. intros [[y x] q] Hw.
  apply list_elem_of_In in Hw.
  apply elem_of_format_writes in Hw as (i & Hi & _ & Hc). simpl in Hc.
  unfold in_grid, format_cell_a, format_cell_b in *. simpl.
  destruct Hc as [Hc|Hc]; repeat case_match; injection Hc as -> ->; lia.
Qed.

Lemma grid_ext (n : nat) (g g' : list (list Z)) :
  square n g → square n g' → (∀ r c, cell g r c = cell g' r c) → g = g'.
Proof.
  intros Hsq Hsq' Hcells. apply list_eq. intros r.
  pose proof (proj1 Hsq) as Hlen. pose proof (proj1 Hsq') as Hlen'.
  destruct (g !! r) as [row|] eqn:Hrow.
  - pose proof (lookup_lt_Some _ _ _ Hrow) as Hr.
    destruct (lookup_lt_is_Some_2 g' r) as [row' Hrow']; [lia|].
    rewrite Hrow'. f_equal. apply list_eq. intros c.
    specialize (Hcells r c). unfold cell in Hcells.
    by rewrite Hrow, Hrow' in Hcells.
  - symmetry. apply lookup_ge_None. apply lookup_ge_None in Hrow. lia.
Qed.

Lemma fplan_cells_9 (l m : Z) (p0 : Plan) (n : nat) :
  (9 ≤ n)%nat → square n (Pixel p0) →
  ∃ g1, fplan l m p0 = Ok (with_Pixel p0 g1) ∧ square n g1 ∧
        ∀ r c, cell g1 r c =
               match written (format_writes (format_bits l m) (Z.of_nat n))
                             (Z.of_nat r) (Z.of_nat c) with
               | Some q => Some q
               | None => cell (Pixel p0) r c
               end.
Proof.
  intros Hn Hsq. rewrite fplan_store.
  assert (Hlen : len (Pixel p0) = Z.of_nat n) by (destruct Hsq as [<- _]; done).
  rewrite Hlen.
  destruct (store_cells n (format_writes (format_bits l m) (Z.of_nat n))
              (Pixel p0) Hsq (format_writes_in_grid_9 _ n Hn))
    as (g1 & Hst & Hsq1 & Hcells).
  exists g1. rewrite Hst. split; [done|]. by split.
Qed.

(** X7. On a square grid fplan succeeds exactly when the side is at least
    9; on a smaller grid, the empty one included, its first store is out
    of range and it panics.  It never returns an error. *)
Theorem fplan_needs_side_9 (l m : Z) (p : Plan) (n : nat) :
  square n (Pixel p) →
  ((9 ≤ n)%nat → ∃ g, fplan l m p = Ok (with_Pixel p g) ∧ square n g) ∧
  ((n < 9)%nat → fplan l m p = Panic).
Proof.
  intros Hsq. split.
  - intros Hn. destruct (fplan_cells_9 l m p n Hn Hsq) as (g & Hf & Hg & _).
    eauto.
  - intros Hn. rewrite fplan_store.
    assert (Hlen : len (Pixel p) = Z.of_nat n) by (destruct Hsq as [<- _]; done).
    rewrite Hlen.
    rewrite (store_Panic n _ _ (format_cell_a 0, format_pixel (format_bits l m) 0)
               Hsq); [done| |].
    + apply elem_of_format_writes. exists 0. simpl. split; [lia|]. auto.
    + unfold in_grid. simpl. lia.
Qed.

Lemma fplan_needs_side_9_witness :
  let p := mkPlan 1 0 0 0 0 0 (replicate 8 (replicate 8 0)) in
  ((9 ≤ 8)%nat → ∃ g, fplan 1 2 p = Ok (with_Pixel p g) ∧ square 8 g) ∧
  ((8 < 9)%nat → fplan 1 2 p = Panic).
Proof.
  intros p. apply (fplan_needs_side_9 1 2 p 8).
  apply (bool_decide_unpack _). by vm_compute.
Defined.

(** X8. Format information can be rewritten: on a square grid of side at
    least 9, running fplan for one level and mask and then for another
    gives the same Plan as running it for the second pair alone. *)
Theorem fplan_overwrites (l m l' m' : Z) (p : Plan) (n : nat) :
  (9 ≤ n)%nat → square n (Pixel p) →
  ∃ p1 p2, fplan l' m' p = Ok p1 ∧ fplan l m p1 = Ok p2 ∧
           fplan l m p = Ok p2.
Proof.
  intros Hn Hsq.
  destruct (fplan_cells_9 l' m' p n Hn Hsq) as (g1 & Hf1 & Hsq1 & Hc1).
  destruct (fplan_cells_9 l m (with_Pixel p g1) n Hn Hsq1)
    as (g2 & Hf2 & Hsq2 & Hc2).
  destruct (fplan_cells_9 l m p n Hn Hsq) as (g & Hf & Hsqg & Hc).
  exists (with_Pixel p g1), (with_Pixel (with_Pixel p g1) g2).
  split; [done|]. split; [done|]. rewrite Hf. f_equal.
  unfold with_Pixel. cbn [Version Level Mask DataBytes CheckBytes Blocks Pixel].
  f_equal. symmetry. apply (grid_ext n); [done..|].
  intros r c. rewrite Hc, Hc2. cbn [Pixel with_Pixel].
  destruct (written (format_writes (format_bits l m) (Z.of_nat n))
              (Z.of_nat r) (Z.of_nat c)) eqn:Hw; [done|].
  rewrite Hc1.
  destruct (written (format_writes (format_bits l' m') (Z.of_nat n))
              (Z.of_nat r) (Z.of_nat c)) as [q|] eqn:Hw'; [|done].
  apply written_None in Hw. destruct Hw.
  rewrite format_writes_cells, <- (format_writes_cells (format_bits l' m')).
  apply written_Some in Hw'. apply list_elem_of_fmap.
  by exists (Z.of_nat r, Z.of_nat c, q).
Qed.

Lemma fplan_overwrites_witness :
  let p := mkPlan 1 0 0 0 0 0 (replicate 21 (replicate 21 0)) in
  ∃ p1 p2, fplan 3 7 p = Ok p1 ∧ fplan 0 2 p1 = Ok p2 ∧
           fplan 0 2 p = Ok p2.
Proof.
  intros p. apply (fplan_overwrites 0 2 3 7 p 21); [lia|].
  apply (bool_decide_unpack _). by vm_compute.
Defined.

(** ** mplan applied twice *)

Lemma mask_pixel_idem (f : Z → Z → bool) (y x : nat) (pix : Z) :
  mask_pixel f y x (mask_pixel f y x pix) = mask_pixel f y x pix.
Proof.
  unfold mask_pixel at 2.
  destruct ((Role pix =? Data) || (Role pix =? Check)) eqn:Hrole;
    [|unfold mask_pixel; by rewrite Hrole].
  destruct (f (Z.of_nat x) (Z.of_nat y)) eqn:Hf;
    [|unfold mask_pixel; by rewrite Hrole, Hf].
  unfold mask_pixel. destruct (lor_Invert pix) as (_ & _ & -> & _).
  rewrite Hrole, Hf, <- Z.lor_assoc. by rewrite Z.lor_diag.
Qed.

Lemma mask_pixel_comm (f f' : Z → Z → bool) (y x : nat) (pix : Z) :
  mask_pixel f y x (mask_pixel f' y x pix)
  = mask_pixel f' y x (mask_pixel f y x pix).
Proof.
  unfold mask_pixel at 2 4.
  destruct (lor_Invert pix) as (_ & _ & HR & _).
  destruct ((Role pix =? Data) || (Role pix =? Check)) eqn:Hrole;
    [|unfold mask_pixel; by rewrite Hrole].
  destruct (f (Z.of_nat x) (Z.of_nat y)) eqn:Hf,
           (f' (Z.of_nat x) (Z.of_nat y)) eqn:Hf';
    unfold mask_pixel; rewrite ?HR, ?Hrole, ?Hf, ?Hf'; done.
Qed.

Lemma imap_imap_grid (F G : nat → nat → Z → Z) (g : list (list Z)) :
  imap (λ y row, imap (λ x pix, F y x pix) row)
       (imap (λ y row, imap (λ x pix, G y x pix) row) g)
  = imap (λ y row, imap (λ x pix, F y x (G y x pix)) row) g.
Proof.
  apply list_eq. intros r. rewrite !list_lookup_imap.
  destruct (g !! r) as [row|]; [|done]. simpl. f_equal.
  apply list_eq. intros c. rewrite !list_lookup_imap.
  by destruct (row !! c).
Qed.

Lemma imap_grid_ext (F G : nat → nat → Z → Z) (g : list (list Z)) :
  (∀ y x pix, F y x pix = G y x pix) →
  imap (λ y row, imap (λ x pix, F y x pix) row) g
  = imap (λ y row, imap (λ x pix, G y x pix) row) g.
Proof.
  intros HFG. apply list_eq. intros r. rewrite !list_lookup_imap.
  destruct (g !! r) as [row|]; [|done]. simpl. f_equal.
  apply list_eq. intros c. rewrite !list_lookup_imap.
  destruct (row !! c); [|done]. simpl. by rewrite HFG.
Qed.

(** X9. mplan is idempotent, and two masks applied one after the other
    leave the same pixels in either order: a mask only adds invert flags,
    it never takes one away, so a masked Plan cannot be re-masked. *)
Theorem mplan_twice (m m' : Z) (p : Plan) :
  0 ≤ m ≤ 7 → 0 ≤ m' ≤ 7 →
  ∃ p1 p2 p1' p2',
    mplan m p = Ok p1 ∧ mplan m p1 = Ok p1 ∧
    mplan m' p1 = Ok p2 ∧ mplan m' p = Ok p1' ∧ mplan m p1' = Ok p2' ∧
    Pixel p2 = Pixel p2'.
Proof.
  intros Hm Hm'.
  destruct (mfunc_lookup m Hm) as [f Hf].
  destruct (mfunc_lookup m' Hm') as [f' Hf'].
  unfold mplan. rewrite Hf, Hf'. do 4 eexists.
  split; [reflexivity|]. split.
  { unfold with_Pixel, with_Mask. simpl. do 2 f_equal.
    rewrite (imap_imap_grid (mask_pixel f) (mask_pixel f)).
    apply imap_grid_ext. intros. apply mask_pixel_idem. }
  split; [reflexivity|]. split; [reflexivity|]. split; [reflexivity|].
  simpl. rewrite (imap_imap_grid (mask_pixel f') (mask_pixel f)),
    (imap_imap_grid (mask_pixel f) (mask_pixel f')).
  apply imap_grid_ext. intros. apply mask_pixel_comm.
Qed.

Lemma mplan_twice_witness :
  let p := mkPlan 1 0 0 0 0 0 [[20; 22]; [24; 0]] in
  ∃ p1 p2 p1' p2',
    mplan 1 p = Ok p1 ∧ mplan 1 p1 = Ok p1 ∧
    mplan 2 p1 = Ok p2 ∧ mplan 2 p = Ok p1' ∧ mplan 1 p1' = Ok p2' ∧
    Pixel p2 = Pixel p2'.
Proof. intros p. apply (mplan_twice 1 2 p); lia. Defined.

(** ** The format code *)

Lemma far_apart_all :
  Forall (λ a, Forall (far_apart a) format_pairs) format_pairs.
Proof. apply (bool_decide_unpack _). vm_compute. exact I. Qed.

Lemma drawn_mixed_all : Forall drawn_mixed format_pairs.
Proof. apply (bool_decide_unpack _). vm_compute. exact I. Qed.

Lemma format_pairs_In (l m : Z) :
  0 ≤ l ≤ 3 → 0 ≤ m ≤ 7 → In (l, m) format_pairs.
Proof.
  intros Hl Hm. apply in_prod; apply list_elem_of_In, elem_of_seqZ; lia.
Qed.

Lemma weight15_0 : weight15 0 = 0.
Proof. reflexivity. Qed.

(** X10. The codewords fplan computes for two different (level, mask)
    pairs, levels 0..3 and masks 0..7, differ in at least 7 of their 15
    bits; in particular the pair can be recovered from the codeword. *)
Theorem format_distance (l m l' m' : Z) :
  0 ≤ l ≤ 3 → 0 ≤ m ≤ 7 → 0 ≤ l' ≤ 3 → 0 ≤ m' ≤ 7 →
  (l, m) ≠ (l', m') →
  7 ≤ weight15 (Z.lxor (format_bits l m) (format_bits l' m')) ∧
  format_bits l m ≠ format_bits l' m'.
Proof.
  intros Hl Hm Hl' Hm' Hne.
  pose proof (proj1 (Forall_forall _ _)
                (proj1 (Forall_forall _ _) far_apart_all (l, m)
                   (format_pairs_In l m Hl Hm))
                (l', m') (format_pairs_In l' m' Hl' Hm')) as [Heq|Hd];
    [done|].
  cbn [fst snd] in Hd. split; [exact Hd|]. intros Heq.
  rewrite Heq, Z.lxor_nilpotent, weight15_0 in Hd. lia.
Qed.

Lemma format_distance_witness :
  7 ≤ weight15 (Z.lxor (format_bits 0 0) (format_bits 1 0)) ∧
  format_bits 0 0 ≠ format_bits 1 0.
Proof. apply (format_distance 0 0 1 0); (lia || congruence). Defined.

(** X11. For every level 0..3 and mask 0..7 the black flags drawn for the
    format bits are neither all clear nor all set: between 5 and 10 of the
    15 are black. *)
Theorem format_never_blank (l m : Z) :
  0 ≤ l ≤ 3 → 0 ≤ m ≤ 7 →
  5 ≤ weight15 (placed_black (format_bits l m)) ≤ 10 ∧
  placed_black (format_bits l m) ≠ 0.
Proof.
  intros Hl Hm.
  pose proof (proj1 (Forall_forall _ _) drawn_mixed_all (l, m)
                (format_pairs_In l m Hl Hm)) as Hd.
  unfold drawn_mixed in Hd. cbn [fst snd] in Hd. split; [exact Hd|].
  intros Heq. rewrite Heq, weight15_0 in Hd. lia.
Qed.

Lemma format_never_blank_witness :
  5 ≤ weight15 (placed_black (format_bits 1 0)) ≤ 10 ∧
  placed_black (format_bits 1 0) ≠ 0.
Proof. apply (format_never_blank 1 0); lia. Defined.

(** ** The alignment loops: termination *)









(** ** The Plan returned by NewPlan *)

Lemma vplan_fields (v : Z) (p : Plan) :
  vplan v = Ok p → p = mkPlan v 0 0 0 0 0 (Pixel p).
Proof.
  unfold vplan. destruct ((v <? 1) || (40 <? v)); [done|].
  destruct (timing _) as [m1| | |]; [|done..].
  change (Ok m1 ≫= ?f) with (f m1). cbv beta.
  destruct (posBox m1 0 0) as [m2| | |]; [|done..].
  change (Ok m2 ≫= ?f) with (f m2). cbv beta.
  destruct (posBox m2 _ 0) as [m3| | |]; [|done..].
  change (Ok m3 ≫= ?f) with (f m3). cbv beta.
  destruct (posBox m3 0 _) as [m4| | |]; [|done..].
  change (Ok m4 ≫= ?f) with (f m4). cbv beta.
  destruct (vtab !! Z.to_nat v) as [info|]; [|done].
  destruct (alignAll _ info m4) as [m5| | |]; [|done..].
  by intros [= <-].
Qed.

Lemma fplan_fields (l m : Z) (p p1 : Plan) :
  fplan l m p = Ok p1 → p1 = with_Pixel p (Pixel p1).
Proof.
  rewrite fplan_store. destruct (store _ (Pixel p)) as [g| | |]; [|done..].
  by intros [= <-].
Qed.

(** X14. Whenever NewPlan returns a Plan, the Plan records the version,
    level and mask it was called with, and its DataBytes, CheckBytes and
    Blocks are 0: the capacity counters are never filled in. *)
Theorem NewPlan_fields (v l m : Z) (p : Plan) :
  NewPlan v l m = Ok p →
  Version p = v ∧ Level p = l ∧ Mask p = m ∧
  DataBytes p = 0 ∧ CheckBytes p = 0 ∧ Blocks p = 0.
Proof.
  unfold NewPlan. destruct (vplan v) as [p0| | |] eqn:Hv; [|done..].
  change (Ok p0 ≫= ?f) with (f p0). cbv beta.
  destruct (fplan l m p0) as [p1| | |] eqn:Hf; [|done..].
  change (Ok p1 ≫= ?f) with (f p1). cbv beta.
  change (lplan l p1 ≫= ?f) with (f (with_Level p1 l)). cbv beta.
  unfold mplan. destruct (index m ≫= _) as [f|]; [|done].
  intros [= <-]. apply vplan_fields in Hv. apply fplan_fields in Hf.
  rewrite Hf, Hv. done.
Qed.

Lemma NewPlan_fields_witness :
  ∃ p, NewPlan 1 3 5 = Ok p ∧
       Version p = 1 ∧ Level p = 3 ∧ Mask p = 5 ∧
       DataBytes p = 0 ∧ CheckBytes p = 0 ∧ Blocks p = 0.
Proof.
  eexists. split; [vm_compute; reflexivity|].
  apply (NewPlan_fields 1 3 5). vm_compute. reflexivity.
Defined.

(** ** Finder and timing patterns in the finished grid *)

Lemma geometry_check_all : forallb geometry_check (seqZ 1 40) = true.
Proof. vm_compute. reflexivity. Qed.

Lemma geometry_cell_ok_true (siz : Z) (r c : nat) (pix : Z) :
  geometry_cell_ok siz r c pix = true →
  (finder_zone siz (Z.of_nat r) (Z.of_nat c) = true →
   pix = finder_pixel siz (Z.of_nat r) (Z.of_nat c)) ∧
  (Role pix = Timing →
   (Z.of_nat r = 6 ∨ Z.of_nat c = 6) ∧
   pix = timing_pixel (if Z.of_nat r =? 6 then Z.of_nat c else Z.of_nat r)) ∧
  (Z.of_nat r = 6 ∨ Z.of_nat c = 6 →
   finder_zone siz (Z.of_nat r) (Z.of_nat c) = false →
   Role pix = Timing ∨ Role pix = Alignment) ∧
  is_invert pix = false.
Proof.
  unfold geometry_cell_ok. cbv zeta.
  set (y := Z.of_nat r). set (x := Z.of_nat c). intros Hok.
  apply andb_true_iff in Hok as [Hok Hinv].
  apply andb_true_iff in Hok as [Hok Hstrip].
  apply andb_true_iff in Hok as [Hzone Htim].
  split; [|split; [|split]].
  - intros Hz. rewrite Hz in Hzone. by apply Z.eqb_eq.
  - intros HR. apply Z.eqb_eq in HR. rewrite HR in Htim.
    apply andb_true_iff in Htim as [H6 Hp]. apply Z.eqb_eq in Hp.
    split; [lia|done].
  - intros H6 Hz. rewrite Hz in Hstrip.
    replace ((y =? 6) || (x =? 6)) with true in Hstrip by lia.
    simpl in Hstrip. apply orb_true_iff in Hstrip. lia.
  - by apply negb_true_iff.
Qed.

Lemma vplan_geometry (v : Z) :
  1 ≤ v ≤ 40 →
  ∃ p0, vplan v = Ok p0 ∧
    ∀ y x pix, get (Pixel p0) y x = Some pix →
      (finder_zone (side v) y x = true → pix = finder_pixel (side v) y x) ∧
      (Role pix = Timing →
       (y = 6 ∨ x = 6) ∧ pix = timing_pixel (if y =? 6 then x else y)) ∧
      (y = 6 ∨ x = 6 → finder_zone (side v) y x = false →
       Role pix = Timing ∨ Role pix = Alignment) ∧
      is_invert pix = false.
Proof.
  intros Hv. pose proof (all_versions _ geometry_check_all v Hv) as Hc.
  unfold geometry_check in Hc.
  destruct (vplan v) as [p0| | |];
    [|discriminate Hc|discriminate Hc|discriminate Hc].
  exists p0. split; [reflexivity|]. intros y x pix Hpix.
  destruct (get_Some_cell _ _ _ _ Hpix) as (r & c & -> & -> & Hcell).
  apply geometry_cell_ok_true.
  by apply (cells_all_lookup _ _ Hc r c pix).
Qed.

Lemma Role_finder_pixel (siz y x : Z) : Role (finder_pixel siz y x) = Position.
Proof.
  unfold finder_pixel. repeat case_match; try apply posPixel_pattern. done.
Qed.

(** A cell that [vplan] leaves with a role is not a format cell. *)
Lemma NewPlan_keeps (v l m : Z) :
  1 ≤ v ≤ 40 → 0 ≤ m ≤ 7 →
  ∃ p0 p, vplan v = Ok p0 ∧ NewPlan v l m = Ok p ∧
    square (Z.to_nat (side v)) (Pixel p) ∧
    (∀ y x pix, get (Pixel p0) y x = Some pix → Role pix ≠ 0 →
                get (Pixel p) y x = Some pix) ∧
    (∀ y x pix, get (Pixel p) y x = Some pix → Role pix ≠ Format →
                get (Pixel p0) y x = Some pix).
Proof.
  intros Hv Hm.
  destruct (NewPlan_get v l m Hv Hm)
    as (p0 & p & Hvp & Hnp & Hsq & _ & Hblank & Hget).
  exists p0, p. repeat (split; [done|]). split.
  - intros y x pix Hpix Hrole. rewrite Hget.
    destruct (written _ y x) as [q|] eqn:Hw; [|done].
    apply written_format_cell, Hblank in Hw. rewrite Hw in Hpix.
    injection Hpix as <-. by destruct Hrole.
  - intros y x pix Hpix Hrole. rewrite Hget in Hpix.
    destruct (written _ y x) as [q|] eqn:Hw; [|done].
    injection Hpix as ->. by apply written_format_Role in Hw.
Qed.

(** X15. For every valid version, level and mask, each cell of the three
    corner zones of the grid returned by NewPlan holds what posBox put
    there: the finder pattern inside the 7x7 boxes at the top-left,
    top-right and bottom-left corners, a light position pixel on their
    borders.  Nothing later overwrites a finder. *)
Theorem NewPlan_finders (v l m : Z) :
  1 ≤ v ≤ 40 → 0 ≤ m ≤ 7 →
  ∃ p, NewPlan v l m = Ok p ∧
    ∀ y x, 0 ≤ y < 4 * v + 17 → 0 ≤ x < 4 * v + 17 →
      finder_zone (4 * v + 17) y x = true →
      get (Pixel p) y x = Some (finder_pixel (4 * v + 17) y x).
Proof.
  intros Hv Hm. replace (4 * v + 17) with (side v) by (unfold side; lia).
  destruct (NewPlan_keeps v l m Hv Hm) as (p0 & p & Hvp & Hnp & Hsq & Hkeep & _).
  destruct (vplan_geometry v Hv) as (p0' & Hvp' & Hgeo).
  rewrite Hvp in Hvp'. injection Hvp' as <-.
  destruct (vplan_valid v Hv) as (p0' & Hvp' & Hsq0 & _).
  rewrite Hvp in Hvp'. injection Hvp' as <-.
  destruct (side_nat v Hv) as [_ Hside].
  exists p. split; [done|]. intros y x Hy Hx Hz.
  destruct (cell_is_Some _ (Pixel p0) (Z.to_nat y) (Z.to_nat x) Hsq0)
    as [pix Hcell]; [lia..|].
  rewrite <- get_cell, !Z2Nat.id in Hcell by lia.
  destruct (Hgeo y x pix Hcell) as (Hfind & _). rewrite <- (Hfind Hz).
  apply Hkeep; [done|]. rewrite (Hfind Hz), Role_finder_pixel. done.
Qed.

Lemma NewPlan_finders_witness :
  ∃ p, NewPlan 2 1 4 = Ok p ∧
    ∀ y x, 0 ≤ y < 4 * 2 + 17 → 0 ≤ x < 4 * 2 + 17 →
      finder_zone (4 * 2 + 17) y x = true →
      get (Pixel p) y x = Some (finder_pixel (4 * 2 + 17) y x).
Proof. apply (NewPlan_finders 2 1 4); lia. Defined.

Lemma timing_pixel_pattern (i : Z) :
  Role (timing_pixel i) = Timing ∧
  is_invert (timing_pixel i) = false ∧
  (is_black (timing_pixel i) = true ↔ i mod 2 = 0).
Proof.
  unfold timing_pixel. rewrite land_1.
  destruct (Z.eqb_spec (i mod 2) 0) as [He|He];
    (split; [reflexivity|split; [reflexivity|]]).
  - done.
  - split; [discriminate|done].
Qed.

(** X16. For every valid version, level and mask, in the grid returned by
    NewPlan a timing cell lies in row 6 or column 6 and is black exactly
    when its index along the strip is even; and every cell of row 6 and
    column 6 outside the finder zones is a timing cell or belongs to an
    alignment box. *)
Theorem NewPlan_timing (v l m : Z) :
  1 ≤ v ≤ 40 → 0 ≤ m ≤ 7 →
  ∃ p, NewPlan v l m = Ok p ∧
    ∀ y x pix, get (Pixel p) y x = Some pix →
      (Role pix = Timing →
       (y = 6 ∨ x = 6) ∧ is_invert pix = false ∧
       (is_black pix = true ↔ (if y =? 6 then x else y) mod 2 = 0)) ∧
      (y = 6 ∨ x = 6 → finder_zone (4 * v + 17) y x = false →
       Role pix = Timing ∨ Role pix = Alignment).
Proof.
  intros Hv Hm. replace (4 * v + 17) with (side v) by (unfold side; lia).
  destruct (NewPlan_keeps v l m Hv Hm)
    as (p0 & p & Hvp & Hnp & Hsq & Hkeep & Hback).
  destruct (vplan_geometry v Hv) as (p0' & Hvp' & Hgeo).
  rewrite Hvp in Hvp'. injection Hvp' as <-.
  destruct (vplan_valid v Hv) as (p0' & Hvp' & Hsq0 & _).
  rewrite Hvp in Hvp'. injection Hvp' as <-.
  exists p. split; [done|]. intros y x pix Hpix. split.
  - intros HR. assert (Hp0 : get (Pixel p0) y x = Some pix).
    { apply Hback; [done|]. rewrite HR. done. }
    destruct (Hgeo y x pix Hp0) as (_ & Htim & _).
    destruct (Htim HR) as [H6 ->]. split; [done|].
    destruct (timing_pixel_pattern (if y =? 6 then x else y)) as (_ & ? & ?).
    done.
  - intros H6 Hz.
    destruct (get_Some_in_grid _ _ _ _ _ Hsq Hpix) as [Hy Hx].
    destruct (cell_is_Some _ (Pixel p0) (Z.to_nat y) (Z.to_nat x) Hsq0)
      as [pix0 Hcell]; [lia..|].
    rewrite <- get_cell, !Z2Nat.id in Hcell by lia.
    destruct (Hgeo y x pix0 Hcell) as (_ & _ & Hstrip & _).
    specialize (Hstrip H6 Hz).
    assert (Hsame : get (Pixel p) y x = Some pix0).
    { apply Hkeep; [done|]. unfold Timing, Alignment in Hstrip. lia. }
    rewrite Hpix in Hsame. by injection Hsame as ->.
Qed.

Lemma NewPlan_timing_witness :
  ∃ p, NewPlan 7 0 0 = Ok p ∧
    ∀ y x pix, get (Pixel p) y x = Some pix →
      (Role pix = Timing →
       (y = 6 ∨ x = 6) ∧ is_invert pix = false ∧
       (is_black pix = true ↔ (if y =? 6 then x else y) mod 2 = 0)) ∧
      (y = 6 ∨ x = 6 → finder_zone (4 * 7 + 17) y x = false →
       Role pix = Timing ∨ Role pix = Alignment).
Proof. apply (NewPlan_timing 7 0 0); lia. Defined.

(** X17. For every valid version, level and mask, mplan changes no pixel
    of the grid NewPlan builds: the returned grid is the grid fplan left,
    and the only cells with the invert flag are format cells. *)
Theorem NewPlan_mask_changes_nothing (v l m : Z) :
  1 ≤ v ≤ 40 → 0 ≤ m ≤ 7 →
  ∃ p0 p1 p, vplan v = Ok p0 ∧ fplan l m p0 = Ok p1 ∧ NewPlan v l m = Ok p ∧
    Pixel p = Pixel p1 ∧
    ∀ y x pix, get (Pixel p) y x = Some pix → is_invert pix = true →
               Role pix = Format.
Proof.
  intros Hv Hm.
  destruct (NewPlan_cells v l m Hv Hm)
    as (p0 & p & Hvp & Hnp & Hsq0 & Hsq & _ & _ & Hcells).
  destruct (NewPlan_keeps v l m Hv Hm) as (p0' & p' & Hvp' & Hnp' & _ & _ & Hback).
  rewrite Hvp in Hvp'. injection Hvp' as <-.
  rewrite Hnp in Hnp'. injection Hnp' as <-.
  destruct (vplan_geometry v Hv) as (p0' & Hvp' & Hgeo).
  rewrite Hvp in Hvp'. injection Hvp' as <-.
  destruct (side_nat v Hv) as [Hn Hside].
  destruct (fplan_cells l m p0 _ Hn Hsq0) as (g1 & Hfp & Hsq1 & Hc1).
  rewrite Hside in Hc1.
  exists p0, (with_Pixel p0 g1), p. repeat (split; [done|]). split.
  - cbn [Pixel with_Pixel]. apply (grid_ext _ _ _ Hsq Hsq1).
    intros r c. by rewrite Hcells, Hc1.
  - intros y x pix Hpix Hinv.
    destruct (decide (Role pix = Format)) as [|Hne]; [done|].
    apply Hback in Hpix; [|done].
    destruct (Hgeo y x pix Hpix) as (_ & _ & _ & Hclear). congruence.
Qed.

Lemma NewPlan_mask_changes_nothing_witness :
  ∃ p0 p1 p, vplan 1 = Ok p0 ∧ fplan 2 6 p0 = Ok p1 ∧ NewPlan 1 2 6 = Ok p ∧
    Pixel p = Pixel p1 ∧
    ∀ y x pix, get (Pixel p) y x = Some pix → is_invert pix = true →
               Role pix = Format.
Proof. apply (NewPlan_mask_changes_nothing 1 2 6); lia. Defined.

(** ** Layout of the alignment boxes *)

Lemma skips_corners_all : Forall skips_corners (seqZ 2 39).
Proof. apply (bool_decide_unpack _). vm_compute. exact I. Qed.

Lemma boxes_apart_all :
  Forall (λ v, boxes_apart (side v) (alignCalls (side v) (axis_of v)))
         (seqZ 1 40).
Proof. apply (bool_decide_unpack _). vm_compute. exact I. Qed.

Lemma axis_of_version (v : Z) :
  1 ≤ v ≤ 40 →
  ∃ info, vtab !! Z.to_nat v = Some info ∧
          axis (side v) info = Ok (axis_of v) ∧
          ∀ m, alignAll (side v) info m
               = for_each (λ xy m, alignBox m xy.1 xy.2)
                          (alignCalls (side v) (axis_of v)) m.
Proof.
  intros Hv. pose proof (all_versions _ align_check_all v Hv) as Hc.
  unfold align_check in Hc. unfold axis_of.
  destruct (vtab !! Z.to_nat v) as [info|]; [|discriminate Hc].
  destruct (vplan v) as [p| | |];
    [|discriminate Hc|discriminate Hc|discriminate Hc].
  destruct (axis (side v) info) as [xs| | |] eqn:Hax;
    [|discriminate Hc|discriminate Hc|discriminate Hc].
  exists info. split; [reflexivity|]. split; [exact Hax|].
  intros m. by apply alignAll_calls.
Qed.

(** X18. For every version in 2..40 the axis values start at 4, end at
    size-9 and are pairwise distinct, and the alignment loops skip exactly
    three of their pairs: (4,4), (4,size-9) and (size-9,4), the ones on a
    finder.  Every other pair gets a box. *)
Theorem alignment_skips_three_corners (v : Z) :
  2 ≤ v ≤ 40 →
  ∃ info xs, vtab !! Z.to_nat v = Some info ∧
    axis (4 * v + 17) info = Ok xs ∧
    head xs = Some 4 ∧ List.last xs 0 = 4 * v + 17 - 9 ∧ NoDup xs ∧
    (∀ m, alignAll (4 * v + 17) info m
          = for_each (λ xy m, alignBox m xy.1 xy.2)
                     (alignCalls (4 * v + 17) xs) m) ∧
    ∀ x y, In x xs → In y xs →
      (In (x, y) (alignCalls (4 * v + 17) xs) ↔
       (x, y) ≠ (4, 4) ∧ (x, y) ≠ (4, 4 * v + 17 - 9)
       ∧ (x, y) ≠ (4 * v + 17 - 9, 4)).
Proof.
  intros Hv. replace (4 * v + 17) with (side v) by (unfold side; lia).
  destruct (axis_of_version v) as (info & Hinfo & Hax & Hall); [lia|].
  assert (Hin : In v (seqZ 2 39)) by (apply list_elem_of_In, elem_of_seqZ; lia).
  pose proof (proj1 (Forall_forall _ _) skips_corners_all v Hin)
    as (Hhead & Hlast & Hnd & Hcalls).
  exists info, (axis_of v). repeat (split; [done|]).
  intros x y Hx Hy. rewrite Hcalls, filter_In, bool_decide_eq_true.
  unfold corner_pairs. rewrite !not_elem_of_cons.
  split.
  - intros [_ (H1 & H2 & H3 & _)]. done.
  - intros (H1 & H2 & H3). split; [by apply in_prod|].
    repeat (split; [done|]). apply not_elem_of_nil.
Qed.

Lemma alignment_skips_three_corners_witness :
  ∃ info xs, vtab !! Z.to_nat 7 = Some info ∧
    axis (4 * 7 + 17) info = Ok xs ∧
    head xs = Some 4 ∧ List.last xs 0 = 4 * 7 + 17 - 9 ∧ NoDup xs ∧
    (∀ m, alignAll (4 * 7 + 17) info m
          = for_each (λ xy m, alignBox m xy.1 xy.2)
                     (alignCalls (4 * 7 + 17) xs) m) ∧
    ∀ x y, In x xs → In y xs →
      (In (x, y) (alignCalls (4 * 7 + 17) xs) ↔
       (x, y) ≠ (4, 4) ∧ (x, y) ≠ (4, 4 * 7 + 17 - 9)
       ∧ (x, y) ≠ (4 * 7 + 17 - 9, 4)).
Proof. apply (alignment_skips_three_corners 7). lia. Defined.

(** X19. For every version in 1..40 each alignment box the loops stamp
    lies inside the grid, and two different boxes are at least 16 cells
    apart along one axis, so no two boxes share a cell. *)
Theorem alignment_boxes_apart (v : Z) :
  1 ≤ v ≤ 40 →
  ∃ info xs, vtab !! Z.to_nat v = Some info ∧
    axis (4 * v + 17) info = Ok xs ∧
    ∀ a, In a (alignCalls (4 * v + 17) xs) →
      (0 ≤ a.1 ∧ a.1 + 5 ≤ 4 * v + 17 ∧ 0 ≤ a.2 ∧ a.2 + 5 ≤ 4 * v + 17) ∧
      ∀ b, In b (alignCalls (4 * v + 17) xs) → a ≠ b →
           (16 ≤ Z.abs (a.1 - b.1) ∨ 16 ≤ Z.abs (a.2 - b.2)) ∧
           ∀ y x, covers a y x → ¬ covers b y x.
Proof.
  intros Hv. replace (4 * v + 17) with (side v) by (unfold side; lia).
  destruct (axis_of_version v Hv) as (info & Hinfo & Hax & _).
  assert (Hin : In v (seqZ 1 40)) by (apply list_elem_of_In, elem_of_seqZ; lia).
  pose proof (proj1 (Forall_forall _ _) boxes_apart_all v Hin) as Hall.
  cbv beta in Hall. unfold boxes_apart in Hall.
  exists info, (axis_of v). repeat (split; [done|]).
  intros a Ha. destruct (proj1 (Forall_forall _ _) Hall a Ha) as [Hgrid Hfar].
  split; [done|]. intros b Hb Hne.
  destruct (proj1 (Forall_forall _ _) Hfar b Hb) as [Heq|Hd]; [done|].
  split; [done|]. unfold covers. intros y x Hca Hcb. lia.
Qed.

Lemma alignment_boxes_apart_witness :
  ∃ info xs, vtab !! Z.to_nat 14 = Some info ∧
    axis (4 * 14 + 17) info = Ok xs ∧
    ∀ a, In a (alignCalls (4 * 14 + 17) xs) →
      (0 ≤ a.1 ∧ a.1 + 5 ≤ 4 * 14 + 17 ∧ 0 ≤ a.2 ∧ a.2 + 5 ≤ 4 * 14 + 17) ∧
      ∀ b, In b (alignCalls (4 * 14 + 17) xs) → a ≠ b →
           (16 ≤ Z.abs (a.1 - b.1) ∨ 16 ≤ Z.abs (a.2 - b.2)) ∧
           ∀ y x, covers a y x → ¬ covers b y x.
Proof. apply (alignment_boxes_apart 14). lia. Defined.
